(** * PyAlgoMate: Black-Scholes pricing, Greeks and implied volatility

    A shallow embedding of [option_price_black_scholes.py].

    Numbers.  The module computes on Python floats (IEEE binary64).  The
    specification types every quantity as a real number, and the embedding
    computes on reals ([R]).  What a float does differently is treated in
    three ways.
    - An overflow that Python reports as an exception is in the model:
      [math.exp] and [**] raise [OverflowError] beyond the largest argument
      whose result is a finite float.
    - The other operations overflow to [inf] or underflow to zero without
      an exception, and a [nan] can follow.  On the quotes that
      [moderate_quote] and [moderate] delimit no intermediate result leaves
      the range of the normal floats; a theorem that says which value a
      function returns carries these hypotheses.  Outside them the only
      non-real float in the model is the literal [math.nan] ([pyfloat]).
    - Rounding is not in the model.  A theorem whose conclusion would not
      survive rounding is stated with a tolerance and with a bound on the
      size of the quote, and takes the accuracy of [norm.cdf] as a
      hypothesis instead of an exact identity.

    Exceptions.  A Python call either returns a value or raises; a function
    of the module is a function into [result], and the operations that can
    raise ([/], [math.log], [math.sqrt], [math.exp], [**], reading a local
    variable that was never assigned) raise in the model too, in the source's
    evaluation order.

    Collaborators.  [scipy.stats.norm.cdf], [scipy.stats.norm.pdf] and
    [scipy.optimize.brentq] are not part of the repository.  The module's
    functions take them as parameters; what a theorem needs to know about
    them is a hypothesis of that theorem. *)

From Stdlib Require Import Reals Lra String ClassicalEpsilon.

Open Scope R_scope.

(** ** Exceptions and results *)

(** A Python exception, identified by the name of its class. *)
Inductive exn : Type :=
| PyExc (class_name : string).

Definition ValueError : exn := PyExc "ValueError".
Definition ZeroDivisionError : exn := PyExc "ZeroDivisionError".
Definition OverflowError : exn := PyExc "OverflowError".
Definition UnboundLocalError : exn := PyExc "UnboundLocalError".
Definition RuntimeError : exn := PyExc "RuntimeError".

(** The two failures the specification names for a reimplementation.  No
    path of the source raises them. *)
Definition InvalidParameter : exn := PyExc "InvalidParameter".

(** The outcome of a call: a returned value or a raised exception. *)
Inductive result (A : Type) : Type :=
| Ok (a : A)
| Raise (e : exn).

Arguments Ok {A} a.
Arguments Raise {A} e.

Definition bind {A B : Type} (c : result A) (k : A -> result B) : result B :=
  match c with
  | Ok a => k a
  | Raise e => Raise e
  end.

Notation "x <- c ;; k" := (bind c (fun x => k))
  (at level 61, c at next level, right associativity).

(** ** Floats *)

(** A float that a function hands back to its caller: a real or [math.nan]. *)
Inductive pyfloat : Type :=
| Fin (x : R)
| NaN.

Definition math_nan : pyfloat := NaN.

(** [x / y]: [ZeroDivisionError] when the divisor is zero. *)
Definition py_div (x y : R) : result R :=
  if Req_dec_T y 0 then Raise ZeroDivisionError else Ok (x / y).

(** [math.log(x)]: [ValueError] (math domain error) unless [0 < x]. *)
Definition math_log (x : R) : result R :=
  if Rlt_dec 0 x then Ok (ln x) else Raise ValueError.

(** [math.sqrt(x)]: [ValueError] (math domain error) when [x < 0]. *)
Definition math_sqrt (x : R) : result R :=
  if Rle_dec 0 x then Ok (sqrt x) else Raise ValueError.

(** The largest float [x] for which [math.exp(x)] is a finite float. *)
Definition exp_overflow_arg : R := 709.782712893384.

(** [math.exp(x)]: [OverflowError] (math range error) beyond
    [exp_overflow_arg]. *)
Definition math_exp (x : R) : result R :=
  if Rlt_dec exp_overflow_arg x then Raise OverflowError else Ok (exp x).

(** The largest float whose square is a finite float. *)
Definition square_overflow_arg : R := 1.3407807929942596e154.

(** [x ** 2]: [OverflowError] (numerical result out of range) when the
    magnitude of [x] is beyond [square_overflow_arg]. *)
Definition py_square (x : R) : result R :=
  if Rlt_dec square_overflow_arg (Rabs x) then Raise OverflowError
  else Ok (x ^ 2).

(** The magnitudes on which float arithmetic neither overflows nor
    underflows in the module's formulas. *)
Definition moderate (x : R) : Prop := 1e-50 <= x <= 1e50.

(** A quote of moderate size: spot, strike and expiry are moderate, the
    rate is at most [1e50] in magnitude, and the discount exponent [r * T]
    is at most 450 in magnitude. *)
Definition moderate_quote (S K r T : R) : Prop :=
  moderate S /\ moderate K /\ moderate T /\
  - 1e50 <= r <= 1e50 /\ - 450 <= r * T <= 450.

(** ** The module *)

(** The default of the keyword argument [sigma_est]. *)
Definition sigma_est_default : R := 0.25.

(** The default tolerances of [scipy.optimize.brentq], which the module
    never overrides: [xtol = 2e-12] and [rtol = 4 * eps] with [eps = 2^-52]. *)
Definition brentq_xtol : R := 2e-12.
Definition brentq_rtol : R := 4 / 2 ^ 52.

Section OptionPriceBlackScholes.

(** [scipy.stats.norm.cdf] and [scipy.stats.norm.pdf]. *)
Variables norm_cdf norm_pdf : R -> R.

(** [scipy.optimize.brentq(f, a, b)]. *)
Variable brentq : (R -> result R) -> R -> R -> result R.

Definition black_scholes_call (S K r T sigma : R) : result R :=
  q <- py_div S K ;;
  l <- math_log q ;;
  sq <- py_square sigma ;;
  sT <- math_sqrt T ;;
  d1 <- py_div (l + (r + 0.5 * sq) * T) (sigma * sT) ;;
  sT' <- math_sqrt T ;;
  let d2 := d1 - sigma * sT' in
  e <- math_exp (- r * T) ;;
  let call_price := S * norm_cdf d1 - K * e * norm_cdf d2 in
  Ok call_price.

Definition black_scholes_put (S K r T sigma : R) : result R :=
  q <- py_div S K ;;
  l <- math_log q ;;
  sq <- py_square sigma ;;
  sT <- math_sqrt T ;;
  d1 <- py_div (l + (r + 0.5 * sq) * T) (sigma * sT) ;;
  sT' <- math_sqrt T ;;
  let d2 := d1 - sigma * sT' in
  e <- math_exp (- r * T) ;;
  let put_price := K * e * norm_cdf (- d2) - S * norm_cdf (- d1) in
  Ok put_price.

(** The closure [difference] of [implied_volatility_call], with the
    variables it captures as arguments. *)
Definition call_difference (S K r T market_price : R) (sigma : R)
  : result R :=
  p <- black_scholes_call S K r T sigma ;;
  Ok (p - market_price).

Definition implied_volatility_call (S K r T market_price sigma_est : R)
  : result R :=
  match brentq (call_difference S K r T market_price) 0.01 5.0 with
  | Raise err => Ok 0
  | Ok implied_volatility => Ok (implied_volatility * 100)
  end.

(** The closure [difference] of [implied_volatility_put]. *)
Definition put_difference (S K r T market_price : R) (sigma : R)
  : result R :=
  p <- black_scholes_put S K r T sigma ;;
  Ok (p - market_price).

Definition implied_volatility_put (S K r T market_price sigma_est : R)
  : result R :=
  match brentq (put_difference S K r T market_price) 0.01 5.0 with
  | Raise err => Ok 0
  | Ok implied_volatility => Ok (implied_volatility * 100)
  end.

(** The local [theta] is assigned in the ["c"] and in the ["p"] branch
    only: it is [None] as long as it is unbound, and reading it then
    raises [UnboundLocalError].  The returned pair is [(vega/100,
    theta/365)]. *)
Definition calculate_theta_and_vega (S K r T sigma : R) (opt_type : string)
  : result (pyfloat * pyfloat) :=
  if Req_dec_T sigma 0 then Ok (math_nan, math_nan)
  else
    q <- py_div S K ;;
    l <- math_log q ;;
    sq <- py_square sigma ;;
    sT <- math_sqrt T ;;
    d1 <- py_div (l + (r + 0.5 * sq) * T) (sigma * sT) ;;
    sT' <- math_sqrt T ;;
    let d2 := d1 - sigma * sT' in
    theta <-
      (if String.eqb opt_type "c" then
         s <- math_sqrt T ;;
         a <- py_div (S * norm_pdf d1 * sigma) (2 * s) ;;
         e <- math_exp (- r * T) ;;
         Ok (Some (- a - r * K * e * norm_cdf d2))
       else if String.eqb opt_type "p" then
         s <- math_sqrt T ;;
         a <- py_div (S * norm_pdf (- d1) * sigma) (2 * s) ;;
         e <- math_exp (- r * T) ;;
         Ok (Some (- a + r * K * e * norm_cdf (- d2)))
       else Ok None) ;;
    s <- math_sqrt T ;;
    let vega := S * norm_pdf d1 * s in
    match theta with
    | None => Raise UnboundLocalError
    | Some theta => Ok (Fin (vega / 100), Fin (theta / 365))
    end.

End OptionPriceBlackScholes.

(** ** The formulas of the specification *)

Definition spec_d1 (S K r T sigma : R) : R :=
  (ln (S / K) + (r + 0.5 * sigma ^ 2) * T) / (sigma * sqrt T).

Definition spec_d2 (S K r T sigma : R) : R :=
  spec_d1 S K r T sigma - sigma * sqrt T.

Definition spec_price_call (Phi : R -> R) (S K r T sigma : R) : R :=
  S * Phi (spec_d1 S K r T sigma)
  - K * exp (- (r * T)) * Phi (spec_d2 S K r T sigma).

Definition spec_price_put (Phi : R -> R) (S K r T sigma : R) : R :=
  K * exp (- (r * T)) * Phi (- spec_d2 S K r T sigma)
  - S * Phi (- spec_d1 S K r T sigma).




(** ** An exact bracketing root finder

    One function that meets the contract of [brentq]: it raises what [f]
    raises at an end point, [ValueError] when the end values have the same
    strict sign, and otherwise returns an exact root of [f] in the bracket
    when there is one. *)

Definition exact_root_finder (f : R -> result R) (a b : R) : result R :=
  ya <- f a ;;
  yb <- f b ;;
  if Rlt_dec 0 (ya * yb) then Raise ValueError
  else
    match excluded_middle_informative
            (exists x : R, a <= x <= b /\ f x = Ok 0) with
    | left H => Ok (proj1_sig (constructive_indefinite_description _ H))
    | right _ => Raise RuntimeError
    end.

(** ** The standard normal distribution

    The density and the distribution function that [norm.pdf] and [norm.cdf]
    compute, as real functions: the distribution function is one half plus
    the integral of the density from zero. *)

Definition std_normal_pdf (x : R) : R := exp (- x ^ 2 / 2) / sqrt (2 * PI).

Lemma std_normal_pdf_continuity : continuity std_normal_pdf.
Proof.
  unfold std_normal_pdf.
  apply derivable_continuous.
  intro x. reg.
Qed.

Lemma std_normal_pdf_integrable (a b : R) :
  Riemann_integrable std_normal_pdf a b.
Proof.
  destruct (Rle_dec a b) as [Hab | Hab].
  - apply continuity_implies_RiemannInt; [exact Hab | ].
    intros x _. apply std_normal_pdf_continuity.
  - apply RiemannInt_P1.
    apply continuity_implies_RiemannInt; [lra | ].
    intros x _. apply std_normal_pdf_continuity.
Qed.

Definition std_normal_cdf (x : R) : R :=
  1 / 2 + RiemannInt (std_normal_pdf_integrable 0 x).


(** * Properties *)

(** ** The arithmetic wrappers on their domains *)

Lemma py_div_ok (x y : R) : y <> 0 -> py_div x y = Ok (x / y).
Proof.
  intro Hy. unfold py_div.
  destruct (Req_dec_T y 0) as [E | _]; [contradiction | reflexivity].
Qed.

Lemma py_div_zero (x : R) : py_div x 0 = Raise ZeroDivisionError.
Proof.
  unfold py_div.
  destruct (Req_dec_T 0 0) as [_ | N]; [reflexivity | now destruct N].
Qed.

Lemma math_log_ok (x : R) : 0 < x -> math_log x = Ok (ln x).
Proof.
  intro Hx. unfold math_log.
  destruct (Rlt_dec 0 x) as [_ | N]; [reflexivity | contradiction].
Qed.

Lemma math_sqrt_ok (x : R) : 0 <= x -> math_sqrt x = Ok (sqrt x).
Proof.
  intro Hx. unfold math_sqrt.
  destruct (Rle_dec 0 x) as [_ | N]; [reflexivity | contradiction].
Qed.

Lemma math_exp_ok (x : R) :
  x <= exp_overflow_arg -> math_exp x = Ok (exp x).
Proof.
  intro Hx. unfold math_exp.
  destruct (Rlt_dec _ x) as [H | _]; [lra | reflexivity].
Qed.

Lemma math_exp_overflow (x : R) :
  exp_overflow_arg < x -> math_exp x = Raise OverflowError.
Proof.
  intro Hx. unfold math_exp.
  destruct (Rlt_dec _ x) as [_ | N]; [reflexivity | contradiction].
Qed.

Lemma py_square_ok (x : R) :
  - square_overflow_arg <= x <= square_overflow_arg ->
  py_square x = Ok (x ^ 2).
Proof.
  intro Hx. unfold py_square.
  destruct (Rlt_dec _ (Rabs x)) as [H | _]; [ | reflexivity ].
  exfalso. revert H. unfold Rabs. destruct (Rcase_abs x); lra.
Qed.

Lemma py_square_overflow (x : R) :
  square_overflow_arg < x \/ x < - square_overflow_arg ->
  py_square x = Raise OverflowError.
Proof.
  intro Hx. unfold py_square.
  destruct (Rlt_dec _ (Rabs x)) as [_ | N]; [reflexivity | ].
  exfalso. apply N. unfold Rabs. destruct (Rcase_abs x); lra.
Qed.

Lemma py_square_opp (x : R) : py_square (- x) = py_square x.
Proof.
  unfold py_square. rewrite Rabs_Ropp.
  destruct (Rlt_dec _ _); [reflexivity | f_equal; ring].
Qed.

Lemma Rabs_le_between (a b : R) : Rabs a <= b -> - b <= a <= b.
Proof.
  unfold Rabs. destruct (Rcase_abs a); lra.
Qed.

Lemma vol_sqrt_neq_0 (T sigma : R) : 0 < T -> sigma <> 0 -> sigma * sqrt T <> 0.
Proof.
  intros HT Hs. apply Rmult_integral_contrapositive_currified; [exact Hs | ].
  apply Rgt_not_eq, sqrt_lt_R0, HT.
Qed.

Lemma two_sqrt_neq_0 (T : R) : 0 < T -> 2 * sqrt T <> 0.
Proof.
  intro HT. pose proof (sqrt_lt_R0 T HT). lra.
Qed.

(** Unfolds the hypotheses on the size of a quote into inequalities. *)
Ltac use_moderate :=
  unfold moderate_quote, moderate in *;
  repeat match goal with
         | H : _ /\ _ |- _ => destruct H
         end.

(** Linear arithmetic with the two overflow thresholds as numbers. *)
Ltac range_lra := unfold square_overflow_arg, exp_overflow_arg in *; lra.

(** Runs the arithmetic of a pricing function on inputs inside its domain. *)
Ltac run_pricing :=
  repeat first
    [ rewrite py_div_ok by
        first [ lra | apply vol_sqrt_neq_0; lra | apply two_sqrt_neq_0; lra ]
    | rewrite math_log_ok by (apply Rdiv_lt_0_compat; lra)
    | rewrite math_sqrt_ok by lra
    | rewrite py_square_ok by range_lra
    | rewrite math_exp_ok by range_lra
    | progress cbn [bind] ].

(** Splits a pricing computation along the tests of its arithmetic. *)
Ltac pricing_cases :=
  unfold py_div, math_log, math_sqrt, math_exp, py_square;
  repeat match goal with
         | |- context [Req_dec_T ?a ?b] => destruct (Req_dec_T a b)
         | |- context [Rlt_dec ?a ?b] => destruct (Rlt_dec a b)
         | |- context [Rle_dec ?a ?b] => destruct (Rle_dec a b)
         | _ => progress cbn [bind]
         end.

Section Pricing.

Variables norm_cdf norm_pdf : R -> R.

(** Inside their domain, and short of the two overflows, the pricers return
    the closed-form prices. *)
Lemma black_scholes_call_ok (S K r T sigma : R) :
  0 < S -> 0 < K -> 0 < T -> sigma <> 0 ->
  - square_overflow_arg <= sigma <= square_overflow_arg ->
  - r * T <= exp_overflow_arg ->
  black_scholes_call norm_cdf S K r T sigma
  = Ok (spec_price_call norm_cdf S K r T sigma).
Proof.
  intros HS HK HT Hs Hsq He.
  unfold black_scholes_call, spec_price_call, spec_d2, spec_d1.
  run_pricing.
  replace (- r * T) with (- (r * T)) by ring.
  reflexivity.
Qed.

Lemma black_scholes_put_ok (S K r T sigma : R) :
  0 < S -> 0 < K -> 0 < T -> sigma <> 0 ->
  - square_overflow_arg <= sigma <= square_overflow_arg ->
  - r * T <= exp_overflow_arg ->
  black_scholes_put norm_cdf S K r T sigma
  = Ok (spec_price_put norm_cdf S K r T sigma).
Proof.
  intros HS HK HT Hs Hsq He.
  unfold black_scholes_put, spec_price_put, spec_d2, spec_d1.
  run_pricing.
  replace (- r * T) with (- (r * T)) by ring.
  reflexivity.
Qed.

(** The same on a quote and a volatility of moderate size. *)
Lemma black_scholes_call_moderate (S K r T sigma : R) :
  moderate_quote S K r T -> moderate sigma ->
  black_scholes_call norm_cdf S K r T sigma
  = Ok (spec_price_call norm_cdf S K r T sigma).
Proof.
  intros Hq Hs. use_moderate. apply black_scholes_call_ok; range_lra.
Qed.

Lemma black_scholes_put_moderate (S K r T sigma : R) :
  moderate_quote S K r T -> moderate sigma ->
  black_scholes_put norm_cdf S K r T sigma
  = Ok (spec_price_put norm_cdf S K r T sigma).
Proof.
  intros Hq Hs. use_moderate. apply black_scholes_put_ok; range_lra.
Qed.

(** At zero volatility the divisor [sigma * sqrt T] is zero and the pricer
    raises. *)
Lemma black_scholes_call_zero_vol (S K r T : R) :
  0 < S -> 0 < K -> 0 <= T ->
  black_scholes_call norm_cdf S K r T 0 = Raise ZeroDivisionError.
Proof.
  intros HS HK HT. unfold black_scholes_call.
  run_pricing. rewrite Rmult_0_l, py_div_zero. reflexivity.
Qed.

(** Where [math.exp] overflows, on a quote that is otherwise inside the
    domain, the pricers raise [OverflowError]. *)
Lemma pricers_exp_overflow (S K r T sigma : R) :
  0 < S -> 0 < K -> 0 < T -> sigma <> 0 ->
  - square_overflow_arg <= sigma <= square_overflow_arg ->
  exp_overflow_arg < - r * T ->
  black_scholes_call norm_cdf S K r T sigma = Raise OverflowError /\
  black_scholes_put norm_cdf S K r T sigma = Raise OverflowError.
Proof.
  intros HS HK HT Hs Hsq He.
  unfold black_scholes_call, black_scholes_put.
  split; run_pricing; rewrite math_exp_overflow by exact He; reflexivity.
Qed.

End Pricing.

(** ** The standard normal distribution function

    It is an antiderivative of the density, and symmetric about zero. *)

Lemma std_normal_cdf_derivative (x : R) :
  derivable_pt_lim std_normal_cdf x (std_normal_pdf x).
Proof.
  assert (Hab : x - 1 <= x + 1) by lra.
  assert (C0 : forall z : R, x - 1 <= z <= x + 1 ->
                 continuity_pt std_normal_pdf z)
    by (intros z _; apply std_normal_pdf_continuity).
  pose (c := 1 / 2 + RiemannInt (std_normal_pdf_integrable 0 (x - 1))).
  apply derivable_pt_lim_locally_ext
    with (f := (fct_cte c + primitive Hab (FTC_P1 Hab C0))%F)
         (a := x - 1) (b := x + 1).
  - lra.
  - intros z Hz. unfold plus_fct, fct_cte, primitive, std_normal_cdf, c.
    destruct (Rle_dec (x - 1) z) as [H1 | H1]; [ | lra ].
    destruct (Rle_dec z (x + 1)) as [H2 | H2]; [ | lra ].
    rewrite Rplus_assoc. f_equal.
    apply RiemannInt_P26.
  - replace (std_normal_pdf x) with (0 + std_normal_pdf x) by ring.
    apply derivable_pt_lim_plus.
    + apply derivable_pt_lim_const.
    + apply RiemannInt_P28. lra.
Qed.

Lemma std_normal_pdf_even (x : R) : std_normal_pdf (- x) = std_normal_pdf x.
Proof.
  unfold std_normal_pdf.
  replace ((- x) ^ 2) with (x ^ 2) by ring. reflexivity.
Qed.

Lemma std_normal_cdf_0 : std_normal_cdf 0 = 1 / 2.
Proof.
  unfold std_normal_cdf. rewrite RiemannInt_P9. ring.
Qed.

Lemma std_normal_cdf_symmetric (x : R) :
  std_normal_cdf x + std_normal_cdf (- x) = 1.
Proof.
  pose (g := fun z : R => std_normal_cdf z + std_normal_cdf (- z)).
  assert (Dg : forall z : R, derivable_pt_lim g z 0).
  { intro z. unfold g.
    replace 0 with (std_normal_pdf z + std_normal_pdf (- z) * -1)
      by (rewrite std_normal_pdf_even; ring).
    apply (derivable_pt_lim_plus std_normal_cdf
             (fun z => std_normal_cdf (- z))).
    - apply std_normal_cdf_derivative.
    - apply (derivable_pt_lim_comp (fun z => - z) std_normal_cdf).
      + replace (-1) with (- 1) by ring.
        apply (derivable_pt_lim_opp id). apply derivable_pt_lim_id.
      + apply std_normal_cdf_derivative. }
  assert (G0 : g 0 = 1).
  { unfold g. rewrite Ropp_0, std_normal_cdf_0. lra. }
  change (g x = 1). rewrite <- G0.
  destruct (Req_dec x 0) as [-> | Hx]; [reflexivity | ].
  destruct (Rtotal_order x 0) as [Hlt | [Heq | Hgt]]; [ | contradiction | ].
  - destruct (MVT_cor2 g (fun _ => 0) x 0 Hlt) as [c [Hc _]].
    + intros; apply Dg.
    + lra.
  - destruct (MVT_cor2 g (fun _ => 0) 0 x Hgt) as [c [Hc _]].
    + intros; apply Dg.
    + lra.
Qed.

(** ** Vega is positive: the call price increases with the volatility *)

Lemma std_normal_pdf_pos (x : R) : 0 < std_normal_pdf x.
Proof.
  unfold std_normal_pdf. apply Rdiv_lt_0_compat; [apply exp_pos | ].
  apply sqrt_lt_R0. pose proof PI_RGT_0. lra.
Qed.

Lemma d1_split_arith (L r T sigma : R) :
  0 < T -> sigma <> 0 ->
  (L + (r + 0.5 * sigma ^ 2) * T) / (sigma * sqrt T)
  = (L + r * T) / sqrt T / sigma + sqrt T / 2 * sigma.
Proof.
  intros HT Hs.
  pose proof (sqrt_lt_R0 T HT) as Hq.
  pose proof (sqrt_sqrt T (Rlt_le _ _ HT)) as E.
  replace 0.5 with (1 / 2) by lra.
  set (s := sqrt T) in *. clearbody s. subst T.
  field. split; lra.
Qed.

Section Vega.

Variable norm_cdf : R -> R.
Hypothesis norm_cdf_derivative :
  forall x : R, derivable_pt_lim norm_cdf x (std_normal_pdf x).

Variables S K r T : R.
Hypothesis S_pos : 0 < S.
Hypothesis K_pos : 0 < K.
Hypothesis T_pos : 0 < T.

(** [d1 = A/sigma + B*sigma] and [d2 = A/sigma - B*sigma]. *)
Let A : R := (ln (S / K) + r * T) / sqrt T.
Let B : R := sqrt T / 2.

Lemma spec_d1_split (sigma : R) :
  sigma <> 0 -> spec_d1 S K r T sigma = A / sigma + B * sigma.
Proof.
  intro Hs. unfold spec_d1, A, B.
  apply d1_split_arith; assumption.
Qed.

Lemma spec_d2_split (sigma : R) :
  sigma <> 0 -> spec_d2 S K r T sigma = A / sigma - B * sigma.
Proof.
  intro Hs. unfold spec_d2. rewrite spec_d1_split by exact Hs.
  unfold B. field. exact Hs.
Qed.

Lemma spec_d1_derivative (sigma : R) :
  0 < sigma ->
  derivable_pt_lim (spec_d1 S K r T) sigma (- A / sigma ^ 2 + B).
Proof.
  intro Hs.
  apply derivable_pt_lim_locally_ext
    with (f := (fct_cte A / id + mult_real_fct B id)%F)
         (a := sigma / 2) (b := sigma + 1).
  - lra.
  - intros z Hz. rewrite spec_d1_split by lra. reflexivity.
  - replace (- A / sigma ^ 2 + B)
      with ((0 * id sigma - 1 * fct_cte A sigma) / Rsqr (id sigma) + B * 1)
      by (unfold id, fct_cte, Rsqr; field; lra).
    apply derivable_pt_lim_plus.
    + apply derivable_pt_lim_div.
      * apply derivable_pt_lim_const.
      * apply derivable_pt_lim_id.
      * unfold id; lra.
    + apply derivable_pt_lim_scal, derivable_pt_lim_id.
Qed.

Lemma spec_d2_derivative (sigma : R) :
  0 < sigma ->
  derivable_pt_lim (spec_d2 S K r T) sigma (- A / sigma ^ 2 - B).
Proof.
  intro Hs.
  apply derivable_pt_lim_ext
    with (f := (spec_d1 S K r T - mult_real_fct (sqrt T) id)%F).
  - intro z. unfold minus_fct, mult_real_fct, id, spec_d2. ring.
  - replace (- A / sigma ^ 2 - B)
      with (- A / sigma ^ 2 + B - sqrt T * 1) by (unfold B; field; lra).
    apply derivable_pt_lim_minus.
    + apply spec_d1_derivative, Hs.
    + apply derivable_pt_lim_scal, derivable_pt_lim_id.
Qed.

(** The identity behind vega: [K e^(-rT) phi(d2) = S phi(d1)]. *)
Lemma discounted_strike_density (sigma : R) :
  sigma <> 0 ->
  K * exp (- (r * T)) * std_normal_pdf (spec_d2 S K r T sigma)
  = S * std_normal_pdf (spec_d1 S K r T sigma).
Proof.
  intro Hs.
  pose proof (sqrt_lt_R0 T T_pos) as Hq.
  unfold std_normal_pdf.
  replace (- spec_d2 S K r T sigma ^ 2 / 2)
    with (- spec_d1 S K r T sigma ^ 2 / 2 + (ln (S / K) + r * T)).
  - rewrite !exp_plus, exp_ln by (apply Rdiv_lt_0_compat; lra).
    rewrite exp_Ropp.
    pose proof (exp_pos (r * T)).
    assert (0 < sqrt (2 * PI))
      by (apply sqrt_lt_R0; pose proof PI_RGT_0; lra).
    field. repeat split; lra.
  - rewrite spec_d1_split, spec_d2_split by exact Hs.
    unfold A, B. field. split; lra.
Qed.

(** Vega: the derivative of the call price in the volatility. *)
Lemma spec_price_call_derivative (sigma : R) :
  0 < sigma ->
  derivable_pt_lim (spec_price_call norm_cdf S K r T) sigma
    (S * std_normal_pdf (spec_d1 S K r T sigma) * sqrt T).
Proof.
  intro Hs.
  apply derivable_pt_lim_ext
    with (f := (mult_real_fct S (comp norm_cdf (spec_d1 S K r T))
                - mult_real_fct (K * exp (- (r * T)))
                    (comp norm_cdf (spec_d2 S K r T)))%F).
  - intro z. unfold minus_fct, mult_real_fct, comp, spec_price_call.
    reflexivity.
  - replace (S * std_normal_pdf (spec_d1 S K r T sigma) * sqrt T)
      with (S * (std_normal_pdf (spec_d1 S K r T sigma)
                 * (- A / sigma ^ 2 + B))
            - K * exp (- (r * T))
              * (std_normal_pdf (spec_d2 S K r T sigma)
                 * (- A / sigma ^ 2 - B))).
    + apply derivable_pt_lim_minus; apply derivable_pt_lim_scal;
        apply derivable_pt_lim_comp;
        auto using spec_d1_derivative, spec_d2_derivative.
    + rewrite <- (Rmult_assoc (K * exp (- (r * T)))).
      rewrite discounted_strike_density by lra.
      unfold B. field. lra.
Qed.

Lemma spec_price_call_increasing (s1 s2 : R) :
  0 < s1 -> s1 < s2 ->
  spec_price_call norm_cdf S K r T s1 < spec_price_call norm_cdf S K r T s2.
Proof.
  intros H1 H12.
  destruct (MVT_cor2 (spec_price_call norm_cdf S K r T)
              (fun c => S * std_normal_pdf (spec_d1 S K r T c) * sqrt T)
              s1 s2 H12) as [c [Hc Hin]].
  - intros c Hc. apply spec_price_call_derivative. lra.
  - assert (0 < S * std_normal_pdf (spec_d1 S K r T c) * sqrt T).
    { apply Rmult_lt_0_compat; [ | apply sqrt_lt_R0, T_pos ].
      apply Rmult_lt_0_compat; [exact S_pos | apply std_normal_pdf_pos]. }
    assert (0 < S * std_normal_pdf (spec_d1 S K r T c) * sqrt T * (s2 - s1))
      by (apply Rmult_lt_0_compat; lra).
    lra.
Qed.

End Vega.

(** ** The contract of the root finder, met by [exact_root_finder] *)

Lemma exact_root_finder_sign (f : R -> result R) (a b ya yb : R) :
  f a = Ok ya -> f b = Ok yb -> 0 < ya * yb ->
  exact_root_finder f a b = Raise ValueError.
Proof.
  intros Ha Hb Hsign. unfold exact_root_finder.
  rewrite Ha, Hb. cbn [bind].
  destruct (Rlt_dec 0 (ya * yb)) as [_ | N]; [reflexivity | contradiction].
Qed.

Lemma exact_root_finder_root (f : R -> result R) (a b x : R) :
  exact_root_finder f a b = Ok x -> a <= x <= b /\ f x = Ok 0.
Proof.
  unfold exact_root_finder.
  destruct (f a) as [ya | e]; cbn [bind]; [ | discriminate ].
  destruct (f b) as [yb | e]; cbn [bind]; [ | discriminate ].
  destruct (Rlt_dec 0 (ya * yb)) as [_ | _]; [discriminate | ].
  destruct (excluded_middle_informative _) as [H | _]; [ | discriminate ].
  intro E. injection E as <-.
  exact (proj2_sig (constructive_indefinite_description _ H)).
Qed.

Lemma exact_root_finder_bracket (f : R -> result R) (a b x : R) :
  a <= b -> exact_root_finder f a b = Ok x -> a <= x <= b.
Proof.
  intros _ E. apply (exact_root_finder_root f a b x E).
Qed.

(** A continuous function with end values of opposite sign, or a zero end
    value, has a root in the bracket. *)
Lemma bracketed_root (g : R -> R) (a b : R) :
  a < b ->
  (forall x : R, a <= x <= b -> continuity_pt g x) ->
  g a * g b <= 0 ->
  exists x : R, a <= x <= b /\ g x = 0.
Proof.
  intros Hab Hcont Hsign.
  destruct (Rtotal_order (g a) 0) as [Ha | [Ha | Ha]].
  - destruct (Rtotal_order (g b) 0) as [Hb | [Hb | Hb]].
    + exfalso. nra.
    + exists b. split; [lra | exact Hb].
    + destruct (Ranalysis5.IVT_interv g a b Hcont Hab Ha Hb) as [z Hz].
      exists z. exact Hz.
  - exists a. split; [lra | exact Ha].
  - destruct (Rtotal_order (g b) 0) as [Hb | [Hb | Hb]].
    + destruct (Ranalysis5.IVT_interv (- g)%F a b) as [z [Hz Hgz]].
      * intros x Hx. apply continuity_pt_opp, Hcont, Hx.
      * exact Hab.
      * unfold opp_fct. lra.
      * unfold opp_fct. lra.
      * exists z. split; [exact Hz | ]. unfold opp_fct in Hgz. lra.
    + exists b. split; [lra | exact Hb].
    + exfalso. nra.
Qed.

Lemma exact_root_finder_converges (f : R -> result R) (g : R -> R) (a b : R) :
  a < b ->
  (forall x : R, a <= x <= b -> f x = Ok (g x)) ->
  (forall x : R, a <= x <= b -> continuity_pt g x) ->
  g a * g b <= 0 ->
  exists x x0 : R,
    exact_root_finder f a b = Ok x /\ a <= x <= b /\
    a <= x0 <= b /\ g x0 = 0 /\
    Rabs (x - x0) <= brentq_xtol + brentq_rtol * Rabs x.
Proof.
  intros Hab Hfg Hcont Hsign.
  destruct (bracketed_root g a b Hab Hcont Hsign) as [z [Hz Hgz]].
  assert (Hex : exists x : R, a <= x <= b /\ f x = Ok 0).
  { exists z. split; [exact Hz | ]. rewrite Hfg by exact Hz. now rewrite Hgz. }
  assert (E : exists x : R, exact_root_finder f a b = Ok x).
  { unfold exact_root_finder.
    rewrite !Hfg by lra. cbn [bind].
    destruct (Rlt_dec 0 (g a * g b)) as [P | _]; [lra | ].
    destruct (excluded_middle_informative _) as [H | N];
      [eexists; reflexivity | contradiction]. }
  destruct E as [x E].
  destruct (exact_root_finder_root f a b x E) as [Hx Hfx].
  rewrite Hfg in Hfx by exact Hx. injection Hfx as Hgx.
  exists x, x.
  repeat (split; [first [exact E | exact Hgx | apply Hx] | ]).
  replace (x - x) with 0 by ring. rewrite Rabs_R0.
  pose proof (Rabs_pos x).
  unfold brentq_xtol, brentq_rtol. nra.
Qed.


Lemma exact_root_finder_propagates (f : R -> result R) (a b : R) (e : exn) :
  f a = Raise e -> exact_root_finder f a b = Raise e.
Proof.
  intro Ha. unfold exact_root_finder. rewrite Ha. reflexivity.
Qed.

(** ** Sensitivities of the put price and sensitivities in the expiry *)

Section PutVega.

Variable norm_cdf : R -> R.
Hypothesis norm_cdf_derivative :
  forall x : R, derivable_pt_lim norm_cdf x (std_normal_pdf x).

Variables S K r T : R.
Hypothesis S_pos : 0 < S.
Hypothesis K_pos : 0 < K.
Hypothesis T_pos : 0 < T.

(** The derivative of the put price in the volatility is the one of the
    call price. *)
Lemma spec_price_put_derivative (sigma : R) :
  0 < sigma ->
  derivable_pt_lim (spec_price_put norm_cdf S K r T) sigma
    (S * std_normal_pdf (spec_d1 S K r T sigma) * sqrt T).
Proof using norm_cdf_derivative S_pos K_pos T_pos.
  intro Hs.
  pose proof (spec_d1_derivative S K r T T_pos sigma Hs) as D1.
  pose proof (spec_d2_derivative S K r T T_pos sigma Hs) as D2.
  set (a1 := - ((ln (S / K) + r * T) / sqrt T) / sigma ^ 2 + sqrt T / 2) in D1.
  set (a2 := - ((ln (S / K) + r * T) / sqrt T) / sigma ^ 2 - sqrt T / 2) in D2.
  apply derivable_pt_lim_ext
    with (f := (mult_real_fct (K * exp (- (r * T)))
                  (comp norm_cdf (- spec_d2 S K r T))
                - mult_real_fct S (comp norm_cdf (- spec_d1 S K r T)))%F).
  - intro z. unfold minus_fct, mult_real_fct, comp, opp_fct, spec_price_put.
    reflexivity.
  - replace (S * std_normal_pdf (spec_d1 S K r T sigma) * sqrt T)
      with (K * exp (- (r * T))
            * (std_normal_pdf ((- spec_d2 S K r T)%F sigma) * - a2)
            - S * (std_normal_pdf ((- spec_d1 S K r T)%F sigma) * - a1)).
    + apply derivable_pt_lim_minus; apply derivable_pt_lim_scal;
        apply derivable_pt_lim_comp;
        auto using derivable_pt_lim_opp.
    + unfold opp_fct. rewrite !std_normal_pdf_even.
      rewrite <- (Rmult_assoc (K * exp (- (r * T)))).
      rewrite discounted_strike_density by lra.
      pose proof (sqrt_lt_R0 T T_pos) as Hq.
      unfold a1, a2. field. split; lra.
Qed.

Lemma spec_price_put_increasing (s1 s2 : R) :
  0 < s1 -> s1 < s2 ->
  spec_price_put norm_cdf S K r T s1 < spec_price_put norm_cdf S K r T s2.
Proof using norm_cdf_derivative S_pos K_pos T_pos.
  intros H1 H12.
  destruct (MVT_cor2 (spec_price_put norm_cdf S K r T)
              (fun c => S * std_normal_pdf (spec_d1 S K r T c) * sqrt T)
              s1 s2 H12) as [c [Hc Hin]].
  - intros c Hc. apply spec_price_put_derivative. lra.
  - assert (0 < S * std_normal_pdf (spec_d1 S K r T c) * sqrt T).
    { apply Rmult_lt_0_compat; [ | apply sqrt_lt_R0, T_pos ].
      apply Rmult_lt_0_compat; [exact S_pos | apply std_normal_pdf_pos]. }
    assert (0 < S * std_normal_pdf (spec_d1 S K r T c) * sqrt T * (s2 - s1))
      by (apply Rmult_lt_0_compat; lra).
    lra.
Qed.

End PutVega.

Section ExpiryDerivative.

Variable norm_cdf : R -> R.
Hypothesis norm_cdf_derivative :
  forall x : R, derivable_pt_lim norm_cdf x (std_normal_pdf x).

Variables S K r sigma : R.
Hypothesis S_pos : 0 < S.
Hypothesis K_pos : 0 < K.
Hypothesis sigma_neq_0 : sigma <> 0.







End ExpiryDerivative.

(** ** The call price *)

Section CallFormula.

Variable norm_cdf : R -> R.

(** C1 (amended): on a quote of moderate size (spot, strike, expiry and
    volatility between 1e-50 and 1e50, the rate at most 1e50 and r·T at most
    450 in magnitude) the call pricer raises nothing and returns
    S·Φ(d1) − K·e^(−rT)·Φ(d2), with d1 = (ln(S/K) + (r + 0.5·sigma²)·T) /
    (sigma·sqrt(T)) and d2 = d1 − sigma·sqrt(T). *)
Theorem black_scholes_call_formula (S K r T sigma : R) :
  moderate_quote S K r T -> moderate sigma ->
  let d1 := (ln (S / K) + (r + 0.5 * sigma ^ 2) * T) / (sigma * sqrt T) in
  let d2 := d1 - sigma * sqrt T in
  black_scholes_call norm_cdf S K r T sigma
  = Ok (S * norm_cdf d1 - K * exp (- (r * T)) * norm_cdf d2)
  /\ d1 = spec_d1 S K r T sigma
  /\ d2 = spec_d2 S K r T sigma.
Proof.
  intros Hq Hs d1 d2.
  split; [ | split; reflexivity ].
  subst d2 d1. use_moderate.
  unfold black_scholes_call.
  run_pricing.
  replace (- r * T) with (- (r * T)) by ring.
  reflexivity.
Qed.

End CallFormula.

(** C1 as stated fails: with the rate r = -1000 on the quote S=100, K=100,
    T=1, sigma=0.2 the call pricer returns no price, whatever [norm.cdf]
    computes: [math.exp(1000)] raises OverflowError. *)
Lemma black_scholes_call_overflows :
  ~ (exists (norm_cdf : R -> R) (p : R),
        black_scholes_call norm_cdf 100 100 (- 1000) 1 0.2 = Ok p).
Proof.
  intros [norm_cdf [p H]].
  rewrite (proj1 (pricers_exp_overflow norm_cdf 100 100 (- 1000) 1 0.2
                    ltac:(lra) ltac:(lra) ltac:(lra) ltac:(lra)
                    ltac:(range_lra) ltac:(range_lra))) in H.
  discriminate H.
Qed.

(** C1 (amended) at the textbook quote S=100, K=100, r=0.05, T=1,
    sigma=0.2. *)
Lemma black_scholes_call_formula_witness :
  black_scholes_call std_normal_cdf 100 100 0.05 1 0.2
  = Ok (100 * std_normal_cdf (spec_d1 100 100 0.05 1 0.2)
        - 100 * exp (- (0.05 * 1))
          * std_normal_cdf (spec_d2 100 100 0.05 1 0.2)).
Proof.
  apply (black_scholes_call_formula std_normal_cdf 100 100 0.05 1 0.2);
    unfold moderate_quote, moderate; repeat split; lra.
Defined.

(** ** Put-call parity *)

Section Parity.

Variable norm_cdf : R -> R.

(** [norm.cdf] is symmetric up to its rounding:
    Φ(x) + Φ(−x) is within 1e-15 of 1. *)
Hypothesis norm_cdf_symmetric_to_rounding :
  forall x : R, Rabs (norm_cdf x + norm_cdf (- x) - 1) <= 1e-15.

Lemma parity_residual (S K r T sigma : R) :
  spec_price_call norm_cdf S K r T sigma
  - spec_price_put norm_cdf S K r T sigma
  - (S - K * exp (- (r * T)))
  = S * (norm_cdf (spec_d1 S K r T sigma)
         + norm_cdf (- spec_d1 S K r T sigma) - 1)
    - K * exp (- (r * T))
      * (norm_cdf (spec_d2 S K r T sigma)
         + norm_cdf (- spec_d2 S K r T sigma) - 1).
Proof using Type.
  unfold spec_price_call, spec_price_put. ring.
Qed.

(** C2 (amended): put-call parity on a quote of moderate size with spot and
    strike at most 1e5 and r·T at least -1.  Both pricers return, and
    call − put is within 1e-8 of S − K·exp(−r·T), given that Φ(x) + Φ(−x)
    is 1 up to rounding; it is exact given Φ(x) + Φ(−x) = 1. *)
Theorem put_call_parity (S K r T sigma : R) :
  moderate_quote S K r T -> moderate sigma ->
  S <= 1e5 -> K <= 1e5 -> - 1 <= r * T ->
  exists call put : R,
    black_scholes_call norm_cdf S K r T sigma = Ok call /\
    black_scholes_put norm_cdf S K r T sigma = Ok put /\
    Rabs ((call - put) - (S - K * exp (- (r * T)))) <= 1e-8 /\
    ((forall x : R, norm_cdf x + norm_cdf (- x) = 1) ->
     call - put = S - K * exp (- (r * T))).
Proof using norm_cdf_symmetric_to_rounding.
  intros Hq Hs HS5 HK5 HrT.
  exists (spec_price_call norm_cdf S K r T sigma),
         (spec_price_put norm_cdf S K r T sigma).
  split; [apply black_scholes_call_moderate; assumption | ].
  split; [apply black_scholes_put_moderate; assumption | ].
  pose proof (parity_residual S K r T sigma) as E.
  split.
  - replace (spec_price_call norm_cdf S K r T sigma
             - spec_price_put norm_cdf S K r T sigma
             - (S - K * exp (- (r * T))))
      with (S * (norm_cdf (spec_d1 S K r T sigma)
                 + norm_cdf (- spec_d1 S K r T sigma) - 1)
            - K * exp (- (r * T))
              * (norm_cdf (spec_d2 S K r T sigma)
                 + norm_cdf (- spec_d2 S K r T sigma) - 1)).
    pose proof (Rabs_le_between _ _
                  (norm_cdf_symmetric_to_rounding (spec_d1 S K r T sigma)))
      as H1.
    pose proof (Rabs_le_between _ _
                  (norm_cdf_symmetric_to_rounding (spec_d2 S K r T sigma)))
      as H2.
    set (a1 := norm_cdf (spec_d1 S K r T sigma)
               + norm_cdf (- spec_d1 S K r T sigma) - 1) in *.
    set (a2 := norm_cdf (spec_d2 S K r T sigma)
               + norm_cdf (- spec_d2 S K r T sigma) - 1) in *.
    assert (He : 0 < exp (- (r * T)) <= 3).
    { split; [apply exp_pos | ].
      apply Rle_trans with (exp 1); [ | apply exp_le_3 ].
      destruct (Req_dec (- (r * T)) 1) as [-> | N]; [lra | ].
      left. apply exp_increasing. lra. }
    set (e := exp (- (r * T))) in *.
    use_moderate.
    assert (HKe : 0 < K * e <= 3e5) by nra.
    set (Ke := K * e) in *.
    apply Rabs_le. clearbody a1 a2 Ke. nra.
  - intro Hsym.
    rewrite (Hsym (spec_d1 S K r T sigma)),
      (Hsym (spec_d2 S K r T sigma)) in E.
    lra.
Qed.

End Parity.

(** C2 as stated fails: with the rate r = -1000 on the quote S=100, K=100,
    T=1, sigma=0.2 the two pricers return no prices to compare. *)
Lemma put_call_parity_overflows :
  ~ (exists (norm_cdf : R -> R) (call put : R),
        black_scholes_call norm_cdf 100 100 (- 1000) 1 0.2 = Ok call /\
        black_scholes_put norm_cdf 100 100 (- 1000) 1 0.2 = Ok put /\
        Rabs ((call - put) - (100 - 100 * exp (- (- 1000 * 1)))) <= 1e-8).
Proof.
  intros [norm_cdf [call [put [H _]]]].
  rewrite (proj1 (pricers_exp_overflow norm_cdf 100 100 (- 1000) 1 0.2
                    ltac:(lra) ltac:(lra) ltac:(lra) ltac:(lra)
                    ltac:(range_lra) ltac:(range_lra))) in H.
  discriminate H.
Qed.

Lemma std_normal_cdf_symmetric_to_rounding (x : R) :
  Rabs (std_normal_cdf x + std_normal_cdf (- x) - 1) <= 1e-15.
Proof.
  rewrite std_normal_cdf_symmetric.
  replace (1 - 1) with 0 by ring. rewrite Rabs_R0. lra.
Qed.

(** C2 (amended) at the textbook quote, for the standard normal
    distribution function. *)
Lemma put_call_parity_witness :
  exists call put : R,
    black_scholes_call std_normal_cdf 100 100 0.05 1 0.2 = Ok call /\
    black_scholes_put std_normal_cdf 100 100 0.05 1 0.2 = Ok put /\
    Rabs ((call - put) - (100 - 100 * exp (- (0.05 * 1)))) <= 1e-8 /\
    ((forall x : R, std_normal_cdf x + std_normal_cdf (- x) = 1) ->
     call - put = 100 - 100 * exp (- (0.05 * 1))).
Proof.
  apply (put_call_parity std_normal_cdf std_normal_cdf_symmetric_to_rounding
           100 100 0.05 1 0.2);
    unfold moderate_quote, moderate; repeat split; lra.
Defined.

(** ** The Greeks *)

Section Greeks.

Variables norm_cdf norm_pdf : R -> R.






(** An option type other than ["c"] and ["p"] leaves [theta] unbound: on
    a well-formed quote the function runs up to its [return] and raises
    there. *)
Lemma calculate_theta_and_vega_unbound (S K r T sigma : R)
      (opt_type : string) :
  0 < S -> 0 < K -> 0 < T -> sigma <> 0 ->
  - square_overflow_arg <= sigma <= square_overflow_arg ->
  opt_type <> "c"%string -> opt_type <> "p"%string ->
  calculate_theta_and_vega norm_cdf norm_pdf S K r T sigma opt_type
  = Raise UnboundLocalError.
Proof.
  intros HS HK HT Hs Hsq Hc Hp.
  apply String.eqb_neq in Hc, Hp.
  unfold calculate_theta_and_vega.
  destruct (Req_dec_T sigma 0) as [E | _]; [contradiction | ].
  rewrite Hc, Hp. run_pricing. reflexivity.
Qed.

(** C8 (amended): for every S, K, r, T and every sigma>0, a call with an
    option type other than "c" and "p" raises an exception and returns no
    pair: it never defaults to one of the two variants. *)
Theorem calculate_theta_and_vega_invalid_opt_type (S K r T sigma : R)
        (opt_type : string) :
  0 < sigma -> opt_type <> "c"%string -> opt_type <> "p"%string ->
  exists e : exn,
    calculate_theta_and_vega norm_cdf norm_pdf S K r T sigma opt_type
    = Raise e.
Proof.
  intros Hs Hc Hp.
  apply String.eqb_neq in Hc, Hp.
  unfold calculate_theta_and_vega.
  destruct (Req_dec_T sigma 0) as [E | _]; [lra | ].
  rewrite Hc, Hp.
  destruct (py_div S K) as [q | e]; cbn [bind]; [ | now exists e ].
  destruct (math_log q) as [l | e]; cbn [bind]; [ | now exists e ].
  destruct (py_square sigma) as [sq | e]; cbn [bind]; [ | now exists e ].
  destruct (math_sqrt T) as [sT | e]; cbn [bind]; [ | now exists e ].
  destruct (py_div _ _) as [d1 | e]; cbn [bind]; [ | now exists e ].
  now exists UnboundLocalError.
Qed.

End Greeks.



(** C8 as stated fails: at the quote S=100, K=100, r=0.05, T=1, sigma=0.2
    with the option type "x", whatever [norm.cdf] and [norm.pdf] compute,
    the exception raised is not an InvalidParameter error. *)
Lemma calculate_theta_and_vega_no_InvalidParameter :
  ~ (exists norm_cdf norm_pdf : R -> R,
        calculate_theta_and_vega norm_cdf norm_pdf 100 100 0.05 1 0.2 "x"
        = Raise InvalidParameter).
Proof.
  intros [norm_cdf [norm_pdf H]].
  rewrite calculate_theta_and_vega_unbound in H;
    try lra; try range_lra; discriminate.
Qed.

(** C8 (amended) at the same input. *)
Lemma calculate_theta_and_vega_invalid_opt_type_witness :
  exists e : exn,
    calculate_theta_and_vega std_normal_cdf std_normal_pdf
      100 100 0.05 1 0.2 "x" = Raise e.
Proof.
  apply (calculate_theta_and_vega_invalid_opt_type
           std_normal_cdf std_normal_pdf 100 100 0.05 1 0.2 "x");
    try lra; discriminate.
Defined.

(** ** Monotonicity in the volatility *)


Section Monotonicity.

(** [norm.cdf], and the exact standard normal distribution function that it
    approximates. *)
Variables norm_cdf exact_cdf : R -> R.

(** The exact distribution function is an antiderivative of the standard
    normal density, and [norm.cdf] is within 1e-15 of it. *)
Hypothesis exact_cdf_derivative :
  forall x : R, derivable_pt_lim exact_cdf x (std_normal_pdf x).
Hypothesis norm_cdf_accurate :
  forall x : R, Rabs (norm_cdf x - exact_cdf x) <= 1e-15.



End Monotonicity.




(** ** The implied-volatility solver *)

Section PricerReturns.

Variable norm_cdf : R -> R.


Lemma black_scholes_put_returns (S K r T sigma p : R) :
  0 < S -> 0 < K -> 0 < T -> sigma <> 0 ->
  - square_overflow_arg <= sigma <= square_overflow_arg ->
  black_scholes_put norm_cdf S K r T sigma = Ok p ->
  - r * T <= exp_overflow_arg /\ p = spec_price_put norm_cdf S K r T sigma.
Proof.
  intros HS HK HT Hs Hsq H.
  destruct (Rle_lt_dec (- r * T) exp_overflow_arg) as [He | He].
  - rewrite black_scholes_put_ok in H by assumption.
    injection H as <-. split; [exact He | reflexivity].
  - rewrite (proj2 (pricers_exp_overflow norm_cdf S K r T sigma
                      HS HK HT Hs Hsq He)) in H.
    discriminate H.
Qed.

End PricerReturns.

Section Solver.

Variable norm_cdf : R -> R.
Variable brentq : (R -> result R) -> R -> R -> result R.

(** [norm.cdf] is an antiderivative of the standard normal density. *)
Hypothesis norm_cdf_derivative :
  forall x : R, derivable_pt_lim norm_cdf x (std_normal_pdf x).

(** [brentq] raises [ValueError] ("f(a) and f(b) must have different
    signs") when the two end values have the same strict sign. *)
Hypothesis brentq_sign :
  forall (f : R -> result R) (a b ya yb : R),
    f a = Ok ya -> f b = Ok yb -> 0 < ya * yb ->
    brentq f a b = Raise ValueError.

(** A root that [brentq] returns lies in the bracket. *)
Hypothesis brentq_bracket :
  forall (f : R -> result R) (a b x : R),
    a <= b -> brentq f a b = Ok x -> a <= x <= b.

(** On a continuous function whose end values do not have the same strict
    sign, [brentq] returns a point of the bracket that is within its
    tolerances of an exact root. *)
Hypothesis brentq_converges :
  forall (f : R -> result R) (g : R -> R) (a b : R),
    a < b ->
    (forall x : R, a <= x <= b -> f x = Ok (g x)) ->
    (forall x : R, a <= x <= b -> continuity_pt g x) ->
    g a * g b <= 0 ->
    exists x x0 : R,
      brentq f a b = Ok x /\ a <= x <= b /\
      a <= x0 <= b /\ g x0 = 0 /\
      Rabs (x - x0) <= brentq_xtol + brentq_rtol * Rabs x.

Lemma call_difference_ok (S K r T market_price sigma : R) :
  0 < S -> 0 < K -> 0 < T -> sigma <> 0 ->
  - square_overflow_arg <= sigma <= square_overflow_arg ->
  - r * T <= exp_overflow_arg ->
  call_difference norm_cdf S K r T market_price sigma
  = Ok (spec_price_call norm_cdf S K r T sigma - market_price).
Proof using Type.
  intros HS HK HT Hs Hsq He. unfold call_difference.
  rewrite black_scholes_call_ok by assumption. reflexivity.
Qed.

Lemma put_difference_ok (S K r T market_price sigma : R) :
  0 < S -> 0 < K -> 0 < T -> sigma <> 0 ->
  - square_overflow_arg <= sigma <= square_overflow_arg ->
  - r * T <= exp_overflow_arg ->
  put_difference norm_cdf S K r T market_price sigma
  = Ok (spec_price_put norm_cdf S K r T sigma - market_price).
Proof using Type.
  intros HS HK HT Hs Hsq He. unfold put_difference.
  rewrite black_scholes_put_ok by assumption. reflexivity.
Qed.

(** C4: for every S, K, r, T and every market price, whenever the objective
    f(sigma) = price(sigma) − market_price has values at the two ends of the
    bracket [0.01, 5.0] and these show no sign change, and equally whenever
    the root search raises any exception whatever, implied_volatility_call
    returns the number 0 and raises nothing.  The same holds for
    implied_volatility_put.  On a quote of moderate size both objectives
    have their two end values. *)
Theorem implied_volatility_failure_sentinel
        (S K r T market_price sigma_est : R) :
  ((forall lo hi : R,
       call_difference norm_cdf S K r T market_price 0.01 = Ok lo ->
       call_difference norm_cdf S K r T market_price 5.0 = Ok hi ->
       0 < lo * hi ->
       implied_volatility_call norm_cdf brentq S K r T market_price sigma_est
       = Ok 0)
   /\
   (forall e : exn,
       brentq (call_difference norm_cdf S K r T market_price) 0.01 5.0
       = Raise e ->
       implied_volatility_call norm_cdf brentq S K r T market_price sigma_est
       = Ok 0))
  /\
  ((forall lo hi : R,
       put_difference norm_cdf S K r T market_price 0.01 = Ok lo ->
       put_difference norm_cdf S K r T market_price 5.0 = Ok hi ->
       0 < lo * hi ->
       implied_volatility_put norm_cdf brentq S K r T market_price sigma_est
       = Ok 0)
   /\
   (forall e : exn,
       brentq (put_difference norm_cdf S K r T market_price) 0.01 5.0
       = Raise e ->
       implied_volatility_put norm_cdf brentq S K r T market_price sigma_est
       = Ok 0))
  /\
  (moderate_quote S K r T ->
   exists c_lo c_hi p_lo p_hi : R,
     call_difference norm_cdf S K r T market_price 0.01 = Ok c_lo /\
     call_difference norm_cdf S K r T market_price 5.0 = Ok c_hi /\
     put_difference norm_cdf S K r T market_price 0.01 = Ok p_lo /\
     put_difference norm_cdf S K r T market_price 5.0 = Ok p_hi).
Proof using brentq_sign.
  split; [split | split; [split | ] ].
  - intros lo hi Hlo Hhi Hsign. unfold implied_volatility_call.
    rewrite (brentq_sign _ _ _ _ _ Hlo Hhi Hsign). reflexivity.
  - intros e He. unfold implied_volatility_call. rewrite He. reflexivity.
  - intros lo hi Hlo Hhi Hsign. unfold implied_volatility_put.
    rewrite (brentq_sign _ _ _ _ _ Hlo Hhi Hsign). reflexivity.
  - intros e He. unfold implied_volatility_put. rewrite He. reflexivity.
  - intro Hq. use_moderate.
    do 4 eexists.
    split; [apply call_difference_ok; range_lra | ].
    split; [apply call_difference_ok; range_lra | ].
    split; [apply put_difference_ok; range_lra | ].
    apply put_difference_ok; range_lra.
Qed.


(** The objective of the call solver is continuous on the bracket. *)
Lemma call_objective_continuous (S K r T p x : R) :
  0 < S -> 0 < K -> 0 < T -> 0 < x ->
  continuity_pt (spec_price_call norm_cdf S K r T - fct_cte p)%F x.
Proof using norm_cdf_derivative.
  intros HS HK HT Hx.
  apply derivable_continuous_pt.
  exists (S * std_normal_pdf (spec_d1 S K r T x) * sqrt T - 0).
  apply derivable_pt_lim_minus.
  - apply spec_price_call_derivative; assumption.
  - apply derivable_pt_lim_const.
Qed.

(** The solver recovers, in percent and up to the tolerances of [brentq],
    the volatility at which a price was computed. *)
Lemma implied_volatility_call_recovers (S K r T sigma sigma_est : R) :
  0 < S -> 0 < K -> 0 < T -> - r * T <= exp_overflow_arg ->
  0.01 <= sigma <= 5.0 ->
  exists v : R,
    implied_volatility_call norm_cdf brentq S K r T
      (spec_price_call norm_cdf S K r T sigma) sigma_est = Ok v /\
    Rabs (v - sigma * 100) <= 100 * (brentq_xtol + brentq_rtol * 5).
Proof using norm_cdf_derivative brentq_converges.
  intros HS HK HT He Hsigma.
  set (p := spec_price_call norm_cdf S K r T sigma).
  set (g := (spec_price_call norm_cdf S K r T - fct_cte p)%F).
  assert (Hg : forall x : R, g x = spec_price_call norm_cdf S K r T x - p)
    by reflexivity.
  assert (Hmono : forall x y : R, 0 < x -> x < y -> g x < g y).
  { intros x y Hx Hxy. rewrite !Hg.
    pose proof (spec_price_call_increasing norm_cdf norm_cdf_derivative
                  S K r T HS HK HT x y Hx Hxy).
    lra. }
  assert (Hroot : g sigma = 0) by (rewrite Hg; unfold p; ring).
  assert (Hlo : g 0.01 <= 0).
  { destruct (Req_dec 0.01 sigma) as [<- | N]; [lra | ].
    pose proof (Hmono 0.01 sigma). lra. }
  assert (Hhi : 0 <= g 5.0).
  { destruct (Req_dec sigma 5.0) as [<- | N]; [lra | ].
    pose proof (Hmono sigma 5.0). lra. }
  destruct (brentq_converges (call_difference norm_cdf S K r T p) g 0.01 5.0)
    as [x [x0 [Hx [Hxin [Hx0in [Hgx0 Hclose]]]]]].
  - lra.
  - intros x Hx. rewrite Hg.
    apply call_difference_ok; try assumption; try lra; range_lra.
  - intros x Hx. apply call_objective_continuous; lra.
  - nra.
  - assert (Ex0 : x0 = sigma).
    { destruct (Rtotal_order x0 sigma) as [Hlt | [Heq | Hgt]];
        [ | exact Heq | ].
      - pose proof (Hmono x0 sigma). lra.
      - pose proof (Hmono sigma x0). lra. }
    subst x0.
    exists (x * 100). unfold implied_volatility_call. fold p. rewrite Hx.
    split; [reflexivity | ].
    assert (Hrtol : 0 <= brentq_rtol) by (unfold brentq_rtol; lra).
    rewrite (Rabs_right x) in Hclose by lra.
    assert (Hrx : brentq_rtol * x <= brentq_rtol * 5) by nra.
    replace (x * 100 - sigma * 100) with (100 * (x - sigma)) by ring.
    rewrite Rabs_mult, (Rabs_right 100) by lra.
    lra.
Qed.

(** C6: round trip.  With S=100, K=100, r=0.05, T=1, sigma=0.2 the call
    pricer returns a price p, and implied_volatility_call on p returns a
    value within 0.01 of 20.0, the volatility in percent. *)
Theorem implied_volatility_call_round_trip (sigma_est : R) :
  exists p v : R,
    black_scholes_call norm_cdf 100 100 0.05 1 0.2 = Ok p /\
    implied_volatility_call norm_cdf brentq 100 100 0.05 1 p sigma_est
    = Ok v /\
    Rabs (v - 20.0) <= 0.01.
Proof using norm_cdf_derivative brentq_converges.
  destruct (implied_volatility_call_recovers 100 100 0.05 1 0.2 sigma_est)
    as [v [Hv Hclose]]; try lra; try range_lra.
  exists (spec_price_call norm_cdf 100 100 0.05 1 0.2), v.
  split; [apply black_scholes_call_ok; try lra; range_lra | ].
  split; [exact Hv | ].
  replace 20.0 with (0.2 * 100) by lra.
  unfold brentq_xtol, brentq_rtol in Hclose. lra.
Qed.

(** C9: the result of implied_volatility_call, and of
    implied_volatility_put, does not depend on sigma_est: any two values
    of it give the same outcome. *)
Theorem implied_volatility_ignores_sigma_est
        (S K r T market_price e1 e2 : R) :
  implied_volatility_call norm_cdf brentq S K r T market_price e1
  = implied_volatility_call norm_cdf brentq S K r T market_price e2
  /\
  implied_volatility_put norm_cdf brentq S K r T market_price e1
  = implied_volatility_put norm_cdf brentq S K r T market_price e2.
Proof using Type.
  unfold implied_volatility_call, implied_volatility_put.
  split; destruct (brentq _ _ _); reflexivity.
Qed.

(** What both solvers do with the outcome of the search: zero when it
    raised, the root times 100 when it returned one. *)
Lemma percent_or_sentinel_range (f : R -> result R) :
  exists v : R,
    match brentq f 0.01 5.0 with
    | Raise err => Ok 0
    | Ok implied_volatility => Ok (implied_volatility * 100)
    end = Ok v /\
    (v = 0 \/ 1.0 <= v <= 500.0) /\
    (v <> 0 -> exists x : R, brentq f 0.01 5.0 = Ok x /\ v = x * 100) /\
    (forall x : R, brentq f 0.01 5.0 = Ok x -> v = x * 100 /\ 1.0 <= v).
Proof using brentq_bracket.
  destruct (brentq f 0.01 5.0) as [x | e] eqn:E.
  - assert (Hx : 0.01 <= x <= 5.0)
      by (apply (brentq_bracket f); [lra | exact E]).
    exists (x * 100).
    split; [reflexivity | ].
    split; [right; lra | ].
    split; [intros _; exists x; split; reflexivity | ].
    intros y Hy. injection Hy as <-. split; [reflexivity | lra].
  - exists 0.
    split; [reflexivity | ].
    split; [left; reflexivity | ].
    split; [intro N; now destruct N | ].
    intros y Hy. discriminate Hy.
Qed.

(** C10: for every input, implied_volatility_call returns a number that
    is either exactly 0 or in [1.0, 500.0]; a non-zero value is 100 times
    the root the search returned, and whenever the search returns a root the
    value is at least 1.0.  The same holds for implied_volatility_put. *)
Theorem implied_volatility_range (S K r T market_price sigma_est : R) :
  (exists v : R,
      implied_volatility_call norm_cdf brentq S K r T market_price sigma_est
      = Ok v /\
      (v = 0 \/ 1.0 <= v <= 500.0) /\
      (v <> 0 ->
       exists x : R,
         brentq (call_difference norm_cdf S K r T market_price) 0.01 5.0
         = Ok x /\ v = x * 100) /\
      (forall x : R,
          brentq (call_difference norm_cdf S K r T market_price) 0.01 5.0
          = Ok x -> v = x * 100 /\ 1.0 <= v))
  /\
  (exists v : R,
      implied_volatility_put norm_cdf brentq S K r T market_price sigma_est
      = Ok v /\
      (v = 0 \/ 1.0 <= v <= 500.0) /\
      (v <> 0 ->
       exists x : R,
         brentq (put_difference norm_cdf S K r T market_price) 0.01 5.0
         = Ok x /\ v = x * 100) /\
      (forall x : R,
          brentq (put_difference norm_cdf S K r T market_price) 0.01 5.0
          = Ok x -> v = x * 100 /\ 1.0 <= v)).
Proof using brentq_bracket.
  split.
  - exact (percent_or_sentinel_range
             (call_difference norm_cdf S K r T market_price)).
  - exact (percent_or_sentinel_range
             (put_difference norm_cdf S K r T market_price)).
Qed.

End Solver.

(** C4 at the textbook quote with the market price 101, for the standard
    normal distribution function and the exact root finder. *)
Lemma implied_volatility_failure_sentinel_witness :
  ((forall lo hi : R,
       call_difference std_normal_cdf 100 100 0.05 1 101 0.01 = Ok lo ->
       call_difference std_normal_cdf 100 100 0.05 1 101 5.0 = Ok hi ->
       0 < lo * hi ->
       implied_volatility_call std_normal_cdf exact_root_finder
         100 100 0.05 1 101 sigma_est_default = Ok 0)
   /\
   (forall e : exn,
       exact_root_finder (call_difference std_normal_cdf 100 100 0.05 1 101)
         0.01 5.0 = Raise e ->
       implied_volatility_call std_normal_cdf exact_root_finder
         100 100 0.05 1 101 sigma_est_default = Ok 0))
  /\
  ((forall lo hi : R,
       put_difference std_normal_cdf 100 100 0.05 1 101 0.01 = Ok lo ->
       put_difference std_normal_cdf 100 100 0.05 1 101 5.0 = Ok hi ->
       0 < lo * hi ->
       implied_volatility_put std_normal_cdf exact_root_finder
         100 100 0.05 1 101 sigma_est_default = Ok 0)
   /\
   (forall e : exn,
       exact_root_finder (put_difference std_normal_cdf 100 100 0.05 1 101)
         0.01 5.0 = Raise e ->
       implied_volatility_put std_normal_cdf exact_root_finder
         100 100 0.05 1 101 sigma_est_default = Ok 0))
  /\
  (moderate_quote 100 100 0.05 1 ->
   exists c_lo c_hi p_lo p_hi : R,
     call_difference std_normal_cdf 100 100 0.05 1 101 0.01 = Ok c_lo /\
     call_difference std_normal_cdf 100 100 0.05 1 101 5.0 = Ok c_hi /\
     put_difference std_normal_cdf 100 100 0.05 1 101 0.01 = Ok p_lo /\
     put_difference std_normal_cdf 100 100 0.05 1 101 5.0 = Ok p_hi).
Proof.
  exact (implied_volatility_failure_sentinel std_normal_cdf exact_root_finder
           exact_root_finder_sign 100 100 0.05 1 101 sigma_est_default).
Defined.



(** C6 for the standard normal distribution function and the exact root
    finder, with the default sigma_est. *)
Lemma implied_volatility_call_round_trip_witness :
  exists p v : R,
    black_scholes_call std_normal_cdf 100 100 0.05 1 0.2 = Ok p /\
    implied_volatility_call std_normal_cdf exact_root_finder
      100 100 0.05 1 p sigma_est_default = Ok v /\
    Rabs (v - 20.0) <= 0.01.
Proof.
  exact (implied_volatility_call_round_trip
           std_normal_cdf exact_root_finder
           std_normal_cdf_derivative exact_root_finder_converges
           sigma_est_default).
Defined.

(** C10 for the exact root finder, at the textbook quote with the market
    price 101. *)
Lemma implied_volatility_range_witness :
  exists v : R,
    implied_volatility_call std_normal_cdf exact_root_finder
      100 100 0.05 1 101 sigma_est_default = Ok v /\
    (v = 0 \/ 1.0 <= v <= 500.0).
Proof.
  destruct (proj1 (implied_volatility_range
                     std_normal_cdf exact_root_finder
                     exact_root_finder_bracket
                     100 100 0.05 1 101 sigma_est_default))
    as [v [Hv [Hrange _]]].
  exists v. split; [exact Hv | exact Hrange].
Defined.

(** * Further properties of the module *)

(** ** The domain of the pricers and the exceptions outside it *)

Section PricerDomain.

Variable norm_cdf : R -> R.

(** X1: what the two pricers do, in the order of their tests.  They raise
    ZeroDivisionError when K = 0 and ValueError when S/K <= 0.  With spot
    and strike of moderate size they raise OverflowError when the volatility
    is too large to be squared; short of that, ValueError when T < 0 and
    ZeroDivisionError when T = 0 or sigma = 0; with expiry, volatility and
    rate of moderate size as well, OverflowError when -r·T is 710 or more.
    On a quote and volatility of moderate size they return the closed-form
    call and put price. *)
Theorem pricer_exceptions (S K r T sigma : R) :
  (K = 0 ->
   black_scholes_call norm_cdf S K r T sigma = Raise ZeroDivisionError /\
   black_scholes_put norm_cdf S K r T sigma = Raise ZeroDivisionError)
  /\
  (K <> 0 -> S / K <= 0 ->
   black_scholes_call norm_cdf S K r T sigma = Raise ValueError /\
   black_scholes_put norm_cdf S K r T sigma = Raise ValueError)
  /\
  (moderate S -> moderate K ->
   square_overflow_arg < sigma \/ sigma < - square_overflow_arg ->
   black_scholes_call norm_cdf S K r T sigma = Raise OverflowError /\
   black_scholes_put norm_cdf S K r T sigma = Raise OverflowError)
  /\
  (moderate S -> moderate K ->
   - square_overflow_arg <= sigma <= square_overflow_arg -> T < 0 ->
   black_scholes_call norm_cdf S K r T sigma = Raise ValueError /\
   black_scholes_put norm_cdf S K r T sigma = Raise ValueError)
  /\
  (moderate S -> moderate K ->
   - square_overflow_arg <= sigma <= square_overflow_arg ->
   T = 0 \/ (0 < T /\ sigma = 0) ->
   black_scholes_call norm_cdf S K r T sigma = Raise ZeroDivisionError /\
   black_scholes_put norm_cdf S K r T sigma = Raise ZeroDivisionError)
  /\
  (moderate S -> moderate K -> moderate T -> moderate sigma ->
   - 1e50 <= r <= 1e50 -> 710 <= - r * T ->
   black_scholes_call norm_cdf S K r T sigma = Raise OverflowError /\
   black_scholes_put norm_cdf S K r T sigma = Raise OverflowError)
  /\
  (moderate_quote S K r T -> moderate sigma ->
   black_scholes_call norm_cdf S K r T sigma
   = Ok (spec_price_call norm_cdf S K r T sigma) /\
   black_scholes_put norm_cdf S K r T sigma
   = Ok (spec_price_put norm_cdf S K r T sigma)).
Proof.
  repeat match goal with |- _ /\ _ => split end.
  - intros ->. unfold black_scholes_call, black_scholes_put.
    rewrite py_div_zero. split; reflexivity.
  - intros HK HSK. unfold black_scholes_call, black_scholes_put.
    rewrite py_div_ok by exact HK. cbn [bind]. unfold math_log.
    destruct (Rlt_dec 0 (S / K)) as [Hpos | _]; [lra | ]. split; reflexivity.
  - intros HS HK Hs. use_moderate.
    unfold black_scholes_call, black_scholes_put.
    run_pricing. rewrite py_square_overflow by exact Hs. split; reflexivity.
  - intros HS HK Hs HT. use_moderate.
    unfold black_scholes_call, black_scholes_put.
    run_pricing. unfold math_sqrt.
    destruct (Rle_dec 0 T) as [Hpos | _]; [lra | ]. split; reflexivity.
  - intros HS HK Hs HT. use_moderate.
    assert (E : sigma * sqrt T = 0).
    { destruct HT as [-> | [_ ->]]; [rewrite sqrt_0 | ]; ring. }
    assert (0 <= T) by (destruct HT as [-> | [? _]]; lra).
    unfold black_scholes_call, black_scholes_put.
    run_pricing. rewrite E, py_div_zero. split; reflexivity.
  - intros HS HK HT Hs Hr He. use_moderate.
    apply pricers_exp_overflow; range_lra.
  - intros Hq Hs.
    split; [apply black_scholes_call_moderate
           | apply black_scholes_put_moderate]; assumption.
Qed.

(** X3: a negative volatility is not rejected.  On every input the call
    pricer at -sigma gives minus what the put pricer gives at sigma, and the
    put pricer at -sigma minus what the call pricer gives at sigma, exceptions
    included. *)
Theorem pricers_negative_volatility (S K r T sigma : R) :
  black_scholes_call norm_cdf S K r T (- sigma)
  = (p <- black_scholes_put norm_cdf S K r T sigma ;; Ok (- p))
  /\
  black_scholes_put norm_cdf S K r T (- sigma)
  = (p <- black_scholes_call norm_cdf S K r T sigma ;; Ok (- p)).
Proof.
  unfold black_scholes_call, black_scholes_put.
  rewrite !py_square_opp.
  assert (Hd : forall l q sq : R,
             sigma * q <> 0 ->
             (l + (r + 0.5 * sq) * T) / (- sigma * q)
             = - ((l + (r + 0.5 * sq) * T) / (sigma * q))).
  { intros l q sq Hq.
    assert (sigma <> 0) by (intro E; apply Hq; rewrite E; ring).
    assert (q <> 0) by (intro E; apply Hq; rewrite E; ring).
    replace 0.5 with (1 / 2) by lra. field. split; assumption. }
  split; pricing_cases; try reflexivity;
    try (exfalso; lra);
    rewrite Hd by assumption;
    set (d := _ / (sigma * sqrt T));
    replace (- d - - sigma * sqrt T) with (- (d - sigma * sqrt T)) by ring;
    rewrite ?Ropp_involutive; f_equal; ring.
Qed.

End PricerDomain.

(** ** The Greeks as sensitivities *)

Section GreeksSensitivities.

Variables norm_cdf norm_pdf : R -> R.

(** [norm.cdf] is an antiderivative of the standard normal density, which is
    what [norm.pdf] computes. *)
Hypothesis norm_cdf_derivative :
  forall x : R, derivable_pt_lim norm_cdf x (std_normal_pdf x).
Hypothesis norm_pdf_density :
  forall x : R, norm_pdf x = std_normal_pdf x.



End GreeksSensitivities.

(** ** The solvers on quotes of moderate size *)

Lemma std_normal_pdf_le_half (x : R) : std_normal_pdf x <= 1 / 2.
Proof.
  unfold std_normal_pdf.
  assert (He : exp (- x ^ 2 / 2) <= 1).
  { rewrite <- exp_0.
    assert (0 <= x ^ 2) by apply pow2_ge_0.
    destruct (Req_dec (- x ^ 2 / 2) 0) as [-> | N]; [lra | ].
    left. apply exp_increasing. lra. }
  assert (Hq : 2 <= sqrt (2 * PI)).
  { rewrite <- (sqrt_square 2) at 1 by lra.
    apply sqrt_le_1_alt. pose proof PI2_3_2. lra. }
  pose proof (exp_pos (- x ^ 2 / 2)) as Hpos.
  apply Rle_trans with (1 / sqrt (2 * PI)).
  - unfold Rdiv. apply Rmult_le_compat_r; [ | exact He ].
    left. apply Rinv_0_lt_compat. lra.
  - unfold Rdiv. rewrite !Rmult_1_l. apply Rinv_le_contravar; lra.
Qed.

(** A function whose derivative lies between 0 and [L] on the positive
    reals moves by at most [L] times the distance. *)
Lemma bounded_slope (f f' : R -> R) (L x y : R) :
  (forall c : R, 0 < c -> derivable_pt_lim f c (f' c)) ->
  (forall c : R, 0 < c -> 0 <= f' c <= L) ->
  0 < x -> 0 < y ->
  Rabs (f x - f y) <= L * Rabs (x - y).
Proof.
  intros Hder Hbound Hx Hy.
  assert (Hord : forall a b : R, 0 < a -> a < b ->
            0 <= f b - f a <= L * (b - a)).
  { intros a b Ha Hab.
    destruct (MVT_cor2 f f' a b Hab) as [c [Hc Hin]].
    - intros c Hc. apply Hder. lra.
    - pose proof (Hbound c ltac:(lra)) as Hf'.
      rewrite Hc. split; [apply Rmult_le_pos; lra | ].
      apply Rmult_le_compat_r; lra. }
  destruct (Rtotal_order x y) as [Hlt | [-> | Hgt]].
  - pose proof (Hord x y Hx Hlt) as H.
    rewrite (Rabs_left1 (f x - f y)), (Rabs_left1 (x - y)) by lra. lra.
  - replace (f y - f y) with 0 by ring.
    replace (y - y) with 0 by ring. rewrite Rabs_R0. lra.
  - pose proof (Hord y x Hy Hgt) as H.
    rewrite (Rabs_right (f x - f y)), (Rabs_right (x - y)) by lra. lra.
Qed.

Section SolverOutcome.

Variable norm_cdf : R -> R.
Variable brentq : (R -> result R) -> R -> R -> result R.

Hypothesis norm_cdf_derivative :
  forall x : R, derivable_pt_lim norm_cdf x (std_normal_pdf x).

Hypothesis brentq_sign :
  forall (f : R -> result R) (a b ya yb : R),
    f a = Ok ya -> f b = Ok yb -> 0 < ya * yb ->
    brentq f a b = Raise ValueError.

Hypothesis brentq_converges :
  forall (f : R -> result R) (g : R -> R) (a b : R),
    a < b ->
    (forall x : R, a <= x <= b -> f x = Ok (g x)) ->
    (forall x : R, a <= x <= b -> continuity_pt g x) ->
    g a * g b <= 0 ->
    exists x x0 : R,
      brentq f a b = Ok x /\ a <= x <= b /\
      a <= x0 <= b /\ g x0 = 0 /\
      Rabs (x - x0) <= brentq_xtol + brentq_rtol * Rabs x.

(** The search on the objective [price - market_price], for a price that is
    continuous on the bracket. *)
Variable f : R -> result R.
Variable price : R -> R.
Variable market_price : R.

Hypothesis objective :
  forall x : R, 0.01 <= x <= 5.0 -> f x = Ok (price x - market_price).
Hypothesis price_continuous :
  forall x : R, 0.01 <= x <= 5.0 -> continuity_pt price x.

Lemma search_on_sign_change :
  (price 0.01 - market_price) * (price 5.0 - market_price) <= 0 ->
  exists x x0 : R,
    brentq f 0.01 5.0 = Ok x /\ 0.01 <= x <= 5.0 /\
    0.01 <= x0 <= 5.0 /\ price x0 = market_price /\
    Rabs (x - x0) <= 2.01e-12.
Proof using brentq_converges objective price_continuous.
  intros Hsign.
  destruct (brentq_converges f (price - fct_cte market_price)%F 0.01 5.0)
    as [x [x0 [Hx [Hxin [Hx0in [Hroot Hclose]]]]]].
  - lra.
  - intros x Hx. apply objective, Hx.
  - intros x Hx. apply continuity_pt_minus;
      [apply price_continuous, Hx
      | apply continuity_pt_const; intros ? ?; reflexivity].
  - exact Hsign.
  - unfold minus_fct, fct_cte in Hroot.
    exists x, x0.
    repeat (split; [first [exact Hx | exact Hxin | exact Hx0in | lra] | ]).
    rewrite (Rabs_right x) in Hclose by lra.
    unfold brentq_xtol, brentq_rtol in Hclose.
    assert (4 / 2 ^ 52 * x <= 4 / 2 ^ 52 * 5) by nra.
    lra.
Qed.

Lemma search_sentinel_iff :
  match brentq f 0.01 5.0 with
  | Raise err => Ok 0
  | Ok implied_volatility => Ok (implied_volatility * 100)
  end = Ok 0
  <-> 0 < (price 0.01 - market_price) * (price 5.0 - market_price).
Proof using brentq_sign brentq_converges objective price_continuous.
  split.
  - intro H0.
    destruct (Rlt_dec 0 ((price 0.01 - market_price)
                         * (price 5.0 - market_price))) as [Hs | Hs];
      [exact Hs | exfalso].
    destruct search_on_sign_change as [x [x0 [Hx [Hxin _]]]]; [lra | ].
    rewrite Hx in H0. injection H0 as H0. lra.
  - intro Hsame.
    rewrite (brentq_sign f 0.01 5.0
               (price 0.01 - market_price) (price 5.0 - market_price)).
    + reflexivity.
    + apply objective. lra.
    + apply objective. lra.
    + exact Hsame.
Qed.

End SolverOutcome.

Section SolverOnModerateQuotes.

Variable norm_cdf : R -> R.
Variable brentq : (R -> result R) -> R -> R -> result R.

Hypothesis norm_cdf_derivative :
  forall x : R, derivable_pt_lim norm_cdf x (std_normal_pdf x).

Hypothesis brentq_sign :
  forall (f : R -> result R) (a b ya yb : R),
    f a = Ok ya -> f b = Ok yb -> 0 < ya * yb ->
    brentq f a b = Raise ValueError.

Hypothesis brentq_converges :
  forall (f : R -> result R) (g : R -> R) (a b : R),
    a < b ->
    (forall x : R, a <= x <= b -> f x = Ok (g x)) ->
    (forall x : R, a <= x <= b -> continuity_pt g x) ->
    g a * g b <= 0 ->
    exists x x0 : R,
      brentq f a b = Ok x /\ a <= x <= b /\
      a <= x0 <= b /\ g x0 = 0 /\
      Rabs (x - x0) <= brentq_xtol + brentq_rtol * Rabs x.

Variables S K r T : R.
Hypothesis quote : moderate_quote S K r T.

Lemma moderate_quote_positive : 0 < S /\ 0 < K /\ 0 < T.
Proof using quote.
  pose proof quote as Hq. unfold moderate_quote, moderate in Hq.
  destruct Hq as [HS [HK [HT _]]]. lra.
Qed.

Lemma bracket_moderate (x : R) : 0.01 <= x <= 5.0 -> moderate x.
Proof using Type.
  unfold moderate. lra.
Qed.

Lemma spec_price_call_continuous (x : R) :
  0 < x -> continuity_pt (spec_price_call norm_cdf S K r T) x.
Proof using norm_cdf_derivative quote.
  intro Hx. destruct moderate_quote_positive as [HS [HK HT]].
  apply derivable_continuous_pt.
  exists (S * std_normal_pdf (spec_d1 S K r T x) * sqrt T).
  apply spec_price_call_derivative; assumption.
Qed.

Lemma spec_price_put_continuous (x : R) :
  0 < x -> continuity_pt (spec_price_put norm_cdf S K r T) x.
Proof using norm_cdf_derivative quote.
  intro Hx. destruct moderate_quote_positive as [HS [HK HT]].
  apply derivable_continuous_pt.
  exists (S * std_normal_pdf (spec_d1 S K r T x) * sqrt T).
  apply spec_price_put_derivative; assumption.
Qed.

(** Vega is at most [S * sqrt T / 2], so with [S <= 1e4] and [T <= 100] a
    price moves by less than 1e-6 over the tolerance of the search. *)
Lemma vega_bound (x : R) :
  S <= 1e4 -> T <= 100 ->
  0 <= S * std_normal_pdf (spec_d1 S K r T x) * sqrt T <= 5e4.
Proof using quote.
  intros HS4 HT2. destruct moderate_quote_positive as [HS [HK HT]].
  pose proof (std_normal_pdf_pos (spec_d1 S K r T x)) as Hp.
  pose proof (std_normal_pdf_le_half (spec_d1 S K r T x)) as Hh.
  pose proof (sqrt_lt_R0 T HT) as Hq.
  assert (Hq10 : sqrt T <= 10).
  { rewrite <- (sqrt_square 10) by lra. apply sqrt_le_1_alt. lra. }
  set (p := std_normal_pdf (spec_d1 S K r T x)) in *.
  set (q := sqrt T) in *. clearbody p q.
  assert (0 <= S * p <= 5e3) by nra.
  set (Sp := S * p) in *. clearbody Sp. nra.
Qed.

Lemma call_price_near (x x0 : R) :
  S <= 1e4 -> T <= 100 -> 0 < x -> 0 < x0 ->
  Rabs (x - x0) <= 2.01e-12 ->
  Rabs (spec_price_call norm_cdf S K r T x
        - spec_price_call norm_cdf S K r T x0) <= 1e-6.
Proof using norm_cdf_derivative quote.
  intros HS4 HT2 Hx Hx0 Hclose.
  destruct moderate_quote_positive as [HS [HK HT]].
  pose proof (bounded_slope (spec_price_call norm_cdf S K r T)
                (fun c => S * std_normal_pdf (spec_d1 S K r T c) * sqrt T)
                5e4 x x0) as Hb.
  pose proof (Rabs_pos (x - x0)).
  apply Rle_trans with (5e4 * Rabs (x - x0)); [ | nra ].
  apply Hb; try assumption.
  - intros c Hc. apply spec_price_call_derivative; assumption.
  - intros c Hc. apply vega_bound; assumption.
Qed.

Lemma put_price_near (x x0 : R) :
  S <= 1e4 -> T <= 100 -> 0 < x -> 0 < x0 ->
  Rabs (x - x0) <= 2.01e-12 ->
  Rabs (spec_price_put norm_cdf S K r T x
        - spec_price_put norm_cdf S K r T x0) <= 1e-6.
Proof using norm_cdf_derivative quote.
  intros HS4 HT2 Hx Hx0 Hclose.
  destruct moderate_quote_positive as [HS [HK HT]].
  pose proof (bounded_slope (spec_price_put norm_cdf S K r T)
                (fun c => S * std_normal_pdf (spec_d1 S K r T c) * sqrt T)
                5e4 x x0) as Hb.
  pose proof (Rabs_pos (x - x0)).
  apply Rle_trans with (5e4 * Rabs (x - x0)); [ | nra ].
  apply Hb; try assumption.
  - intros c Hc. apply spec_price_put_derivative; assumption.
  - intros c Hc. apply vega_bound; assumption.
Qed.

Lemma call_objective (market_price x : R) :
  0.01 <= x <= 5.0 ->
  call_difference norm_cdf S K r T market_price x
  = Ok (spec_price_call norm_cdf S K r T x - market_price).
Proof using quote.
  intro Hx. unfold call_difference.
  rewrite black_scholes_call_moderate
    by (try exact quote; apply bracket_moderate, Hx).
  reflexivity.
Qed.

Lemma put_objective (market_price x : R) :
  0.01 <= x <= 5.0 ->
  put_difference norm_cdf S K r T market_price x
  = Ok (spec_price_put norm_cdf S K r T x - market_price).
Proof using quote.
  intro Hx. unfold put_difference.
  rewrite black_scholes_put_moderate
    by (try exact quote; apply bracket_moderate, Hx).
  reflexivity.
Qed.

(** X9: on a quote of moderate size with S <= 1e4 and T <= 100, when the
    call prices at sigma = 0.01 and sigma = 5.0 do not lie strictly on the
    same side of the market price, implied_volatility_call returns a value v
    in [1, 500], and at the volatility v/100 black_scholes_call returns a
    price within 1e-6 of the market price. *)
Theorem implied_volatility_call_solves
        (market_price sigma_est p_lo p_hi : R) :
  S <= 1e4 -> T <= 100 ->
  black_scholes_call norm_cdf S K r T 0.01 = Ok p_lo ->
  black_scholes_call norm_cdf S K r T 5.0 = Ok p_hi ->
  (p_lo - market_price) * (p_hi - market_price) <= 0 ->
  exists v vol p : R,
    implied_volatility_call norm_cdf brentq S K r T market_price sigma_est
    = Ok v /\
    1 <= v <= 500 /\ v = vol * 100 /\
    black_scholes_call norm_cdf S K r T vol = Ok p /\
    Rabs (p - market_price) <= 1e-6.
Proof using norm_cdf_derivative brentq_converges quote.
  intros HS4 HT2 Hlo Hhi Hsign.
  rewrite black_scholes_call_moderate in Hlo, Hhi
    by (try exact quote; apply bracket_moderate; lra).
  injection Hlo as <-. injection Hhi as <-.
  destruct (search_on_sign_change brentq brentq_converges
              (call_difference norm_cdf S K r T market_price)
              (spec_price_call norm_cdf S K r T) market_price)
    as [x [x0 [Hx [Hxin [Hx0in [Hroot Hclose]]]]]].
  - intros x Hx. apply call_objective, Hx.
  - intros x Hx. apply spec_price_call_continuous. lra.
  - exact Hsign.
  - exists (x * 100), x, (spec_price_call norm_cdf S K r T x).
    unfold implied_volatility_call. rewrite Hx.
    split; [reflexivity | ].
    split; [lra | ].
    split; [reflexivity | ].
    split.
    + apply black_scholes_call_moderate;
        [exact quote | apply bracket_moderate, Hxin].
    + rewrite <- Hroot. apply call_price_near; try assumption; lra.
Qed.

(** X10: on a quote of moderate size with S <= 1e4, K <= 1e4, T <= 100 and
    r·T at least -1 (which keeps the put prices below 3e4), when the put
    prices at sigma = 0.01 and sigma = 5.0 do not lie strictly on the same
    side of the market price, implied_volatility_put returns a value v in
    [1, 500], and at the volatility v/100 black_scholes_put returns a price
    within 1e-6 of the market price. *)
Theorem implied_volatility_put_solves
        (market_price sigma_est p_lo p_hi : R) :
  S <= 1e4 -> K <= 1e4 -> T <= 100 -> - 1 <= r * T ->
  black_scholes_put norm_cdf S K r T 0.01 = Ok p_lo ->
  black_scholes_put norm_cdf S K r T 5.0 = Ok p_hi ->
  (p_lo - market_price) * (p_hi - market_price) <= 0 ->
  exists v vol p : R,
    implied_volatility_put norm_cdf brentq S K r T market_price sigma_est
    = Ok v /\
    1 <= v <= 500 /\ v = vol * 100 /\
    black_scholes_put norm_cdf S K r T vol = Ok p /\
    Rabs (p - market_price) <= 1e-6.
Proof using norm_cdf_derivative brentq_converges quote.
  intros HS4 _ HT2 _ Hlo Hhi Hsign.
  rewrite black_scholes_put_moderate in Hlo, Hhi
    by (try exact quote; apply bracket_moderate; lra).
  injection Hlo as <-. injection Hhi as <-.
  destruct (search_on_sign_change brentq brentq_converges
              (put_difference norm_cdf S K r T market_price)
              (spec_price_put norm_cdf S K r T) market_price)
    as [x [x0 [Hx [Hxin [Hx0in [Hroot Hclose]]]]]].
  - intros x Hx. apply put_objective, Hx.
  - intros x Hx. apply spec_price_put_continuous. lra.
  - exact Hsign.
  - exists (x * 100), x, (spec_price_put norm_cdf S K r T x).
    unfold implied_volatility_put. rewrite Hx.
    split; [reflexivity | ].
    split; [lra | ].
    split; [reflexivity | ].
    split.
    + apply black_scholes_put_moderate;
        [exact quote | apply bracket_moderate, Hxin].
    + rewrite <- Hroot. apply put_price_near; try assumption; lra.
Qed.

(** X11: on a quote of moderate size each solver returns 0 exactly when the
    prices of its pricer at sigma = 0.01 and sigma = 5.0 lie strictly on the
    same side of the market price. *)
Theorem implied_volatility_sentinel_iff (market_price sigma_est : R) :
  (forall p_lo p_hi : R,
      black_scholes_call norm_cdf S K r T 0.01 = Ok p_lo ->
      black_scholes_call norm_cdf S K r T 5.0 = Ok p_hi ->
      (implied_volatility_call norm_cdf brentq S K r T market_price sigma_est
       = Ok 0
       <-> 0 < (p_lo - market_price) * (p_hi - market_price)))
  /\
  (forall p_lo p_hi : R,
      black_scholes_put norm_cdf S K r T 0.01 = Ok p_lo ->
      black_scholes_put norm_cdf S K r T 5.0 = Ok p_hi ->
      (implied_volatility_put norm_cdf brentq S K r T market_price sigma_est
       = Ok 0
       <-> 0 < (p_lo - market_price) * (p_hi - market_price))).
Proof using norm_cdf_derivative brentq_sign brentq_converges quote.
  split; intros p_lo p_hi Hlo Hhi.
  - rewrite black_scholes_call_moderate in Hlo, Hhi
      by (try exact quote; apply bracket_moderate; lra).
    injection Hlo as <-. injection Hhi as <-.
    apply (search_sentinel_iff brentq brentq_sign brentq_converges).
    + intros x Hx. apply call_objective, Hx.
    + intros x Hx. apply spec_price_call_continuous. lra.
  - rewrite black_scholes_put_moderate in Hlo, Hhi
      by (try exact quote; apply bracket_moderate; lra).
    injection Hlo as <-. injection Hhi as <-.
    apply (search_sentinel_iff brentq brentq_sign brentq_converges).
    + intros x Hx. apply put_objective, Hx.
    + intros x Hx. apply spec_price_put_continuous. lra.
Qed.

End SolverOnModerateQuotes.

(** ** The solvers on ill-formed quotes and out-of-range prices *)

Section PricersOutsideDomain.

Variable norm_cdf : R -> R.

Lemma pricers_raise_outside_domain (S K r T sigma : R) :
  K = 0 \/ S / K <= 0 \/ T <= 0 ->
  (exists e : exn, black_scholes_call norm_cdf S K r T sigma = Raise e) /\
  (exists e : exn, black_scholes_put norm_cdf S K r T sigma = Raise e).
Proof.
  intro Hbad.
  unfold black_scholes_call, black_scholes_put.
  split; pricing_cases; try (eexists; reflexivity); exfalso.
  all: destruct Hbad as [HK | [HSK | HT]]; try contradiction; try lra.
  all: match goal with
       | N : _ * sqrt ?t <> 0 |- _ =>
           apply N; replace t with 0 by lra; rewrite sqrt_0; ring
       end.
Qed.


End PricersOutsideDomain.

Section SolverEdges.

Variable norm_cdf : R -> R.
Variable brentq : (R -> result R) -> R -> R -> result R.

(** [brentq] evaluates [f] at the lower end first; what [f] raises there
    leaves [brentq]. *)
Hypothesis brentq_propagates :
  forall (f : R -> result R) (a b : R) (e : exn),
    f a = Raise e -> brentq f a b = Raise e.

Hypothesis brentq_sign :
  forall (f : R -> result R) (a b ya yb : R),
    f a = Ok ya -> f b = Ok yb -> 0 < ya * yb ->
    brentq f a b = Raise ValueError.

Hypothesis norm_cdf_range : forall x : R, 0 <= norm_cdf x <= 1.

Lemma solvers_on_raising_pricers (S K r T market_price sigma_est : R) :
  (exists e : exn, black_scholes_call norm_cdf S K r T 0.01 = Raise e) ->
  (exists e : exn, black_scholes_put norm_cdf S K r T 0.01 = Raise e) ->
  implied_volatility_call norm_cdf brentq S K r T market_price sigma_est
  = Ok 0
  /\
  implied_volatility_put norm_cdf brentq S K r T market_price sigma_est
  = Ok 0.
Proof using brentq_propagates.
  intros [ec Hc] [ep Hp].
  unfold implied_volatility_call, implied_volatility_put.
  rewrite (brentq_propagates (call_difference norm_cdf S K r T market_price)
             0.01 5.0 ec)
    by (unfold call_difference; rewrite Hc; reflexivity).
  rewrite (brentq_propagates (put_difference norm_cdf S K r T market_price)
             0.01 5.0 ep)
    by (unfold put_difference; rewrite Hp; reflexivity).
  split; reflexivity.
Qed.

(** X13: on an ill-formed quote (K = 0, or S/K <= 0, or T <= 0) both
    solvers return 0 for every market price: the pricer raises at the lower
    end of the bracket and the exception is turned into the sentinel. *)
Theorem implied_volatility_ill_formed_quote
        (S K r T market_price sigma_est : R) :
  K = 0 \/ S / K <= 0 \/ T <= 0 ->
  implied_volatility_call norm_cdf brentq S K r T market_price sigma_est
  = Ok 0
  /\
  implied_volatility_put norm_cdf brentq S K r T market_price sigma_est
  = Ok 0.
Proof using brentq_propagates.
  intro Hbad.
  destruct (pricers_raise_outside_domain norm_cdf S K r T 0.01 Hbad)
    as [Hc Hp].
  apply solvers_on_raising_pricers; assumption.
Qed.




End SolverEdges.

(** ** The further properties at concrete inputs

    On the textbook quote S=100, K=100, r=0.05, T=1, sigma=0.2 unless said
    otherwise, for the standard normal distribution function and the exact
    root finder. *)

Lemma textbook_quote : moderate_quote 100 100 0.05 1.
Proof.
  unfold moderate_quote, moderate. repeat split; lra.
Defined.

(** X1 at the expiry T = 0. *)
Lemma pricer_exceptions_witness :
  black_scholes_call std_normal_cdf 100 100 0.05 0 0.2
  = Raise ZeroDivisionError
  /\
  black_scholes_put std_normal_cdf 100 100 0.05 0 0.2
  = Raise ZeroDivisionError.
Proof.
  apply (proj1 (proj2 (proj2 (proj2 (proj2
           (pricer_exceptions std_normal_cdf 100 100 0.05 0 0.2))))));
    [unfold moderate; lra | unfold moderate; lra
     | unfold square_overflow_arg; lra | left; reflexivity].
Defined.



(** X9 at the market price the call pricer returns at sigma = 0.2. *)
Lemma implied_volatility_call_solves_witness :
  exists v vol p : R,
    implied_volatility_call std_normal_cdf exact_root_finder 100 100 0.05 1
      (spec_price_call std_normal_cdf 100 100 0.05 1 0.2) sigma_est_default
    = Ok v /\
    1 <= v <= 500 /\ v = vol * 100 /\
    black_scholes_call std_normal_cdf 100 100 0.05 1 vol = Ok p /\
    Rabs (p - spec_price_call std_normal_cdf 100 100 0.05 1 0.2) <= 1e-6.
Proof.
  apply (implied_volatility_call_solves std_normal_cdf exact_root_finder
           std_normal_cdf_derivative exact_root_finder_converges
           100 100 0.05 1 textbook_quote
           (spec_price_call std_normal_cdf 100 100 0.05 1 0.2)
           sigma_est_default
           (spec_price_call std_normal_cdf 100 100 0.05 1 0.01)
           (spec_price_call std_normal_cdf 100 100 0.05 1 5.0)).
  - lra.
  - lra.
  - apply black_scholes_call_ok; try lra; range_lra.
  - apply black_scholes_call_ok; try lra; range_lra.
  - pose proof (spec_price_call_increasing std_normal_cdf
                  std_normal_cdf_derivative 100 100 0.05 1
                  ltac:(lra) ltac:(lra) ltac:(lra)
                  0.01 0.2 ltac:(lra) ltac:(lra)) as Hlo.
    pose proof (spec_price_call_increasing std_normal_cdf
                  std_normal_cdf_derivative 100 100 0.05 1
                  ltac:(lra) ltac:(lra) ltac:(lra)
                  0.2 5.0 ltac:(lra) ltac:(lra)) as Hhi.
    nra.
Defined.

(** X10 at the market price the put pricer returns at sigma = 0.2. *)
Lemma implied_volatility_put_solves_witness :
  exists v vol p : R,
    implied_volatility_put std_normal_cdf exact_root_finder 100 100 0.05 1
      (spec_price_put std_normal_cdf 100 100 0.05 1 0.2) sigma_est_default
    = Ok v /\
    1 <= v <= 500 /\ v = vol * 100 /\
    black_scholes_put std_normal_cdf 100 100 0.05 1 vol = Ok p /\
    Rabs (p - spec_price_put std_normal_cdf 100 100 0.05 1 0.2) <= 1e-6.
Proof.
  apply (implied_volatility_put_solves std_normal_cdf exact_root_finder
           std_normal_cdf_derivative exact_root_finder_converges
           100 100 0.05 1 textbook_quote
           (spec_price_put std_normal_cdf 100 100 0.05 1 0.2)
           sigma_est_default
           (spec_price_put std_normal_cdf 100 100 0.05 1 0.01)
           (spec_price_put std_normal_cdf 100 100 0.05 1 5.0)).
  - lra.
  - lra.
  - lra.
  - lra.
  - apply black_scholes_put_ok; try lra; range_lra.
  - apply black_scholes_put_ok; try lra; range_lra.
  - pose proof (spec_price_put_increasing std_normal_cdf
                  std_normal_cdf_derivative 100 100 0.05 1
                  ltac:(lra) ltac:(lra) ltac:(lra)
                  0.01 0.2 ltac:(lra) ltac:(lra)) as Hlo.
    pose proof (spec_price_put_increasing std_normal_cdf
                  std_normal_cdf_derivative 100 100 0.05 1
                  ltac:(lra) ltac:(lra) ltac:(lra)
                  0.2 5.0 ltac:(lra) ltac:(lra)) as Hhi.
    nra.
Defined.

(** X11 on the textbook quote with the market price 101. *)
Lemma implied_volatility_sentinel_iff_witness :
  (forall p_lo p_hi : R,
      black_scholes_call std_normal_cdf 100 100 0.05 1 0.01 = Ok p_lo ->
      black_scholes_call std_normal_cdf 100 100 0.05 1 5.0 = Ok p_hi ->
      (implied_volatility_call std_normal_cdf exact_root_finder
         100 100 0.05 1 101 sigma_est_default = Ok 0
       <-> 0 < (p_lo - 101) * (p_hi - 101)))
  /\
  (forall p_lo p_hi : R,
      black_scholes_put std_normal_cdf 100 100 0.05 1 0.01 = Ok p_lo ->
      black_scholes_put std_normal_cdf 100 100 0.05 1 5.0 = Ok p_hi ->
      (implied_volatility_put std_normal_cdf exact_root_finder
         100 100 0.05 1 101 sigma_est_default = Ok 0
       <-> 0 < (p_lo - 101) * (p_hi - 101))).
Proof.
  exact (implied_volatility_sentinel_iff std_normal_cdf exact_root_finder
           std_normal_cdf_derivative
           exact_root_finder_sign exact_root_finder_converges
           100 100 0.05 1 textbook_quote 101 sigma_est_default).
Defined.

(** X13 at the strike K = 0. *)
Lemma implied_volatility_ill_formed_quote_witness :
  implied_volatility_call std_normal_cdf exact_root_finder
    100 0 0.05 1 10 sigma_est_default = Ok 0
  /\
  implied_volatility_put std_normal_cdf exact_root_finder
    100 0 0.05 1 10 sigma_est_default = Ok 0.
Proof.
  apply (implied_volatility_ill_formed_quote std_normal_cdf exact_root_finder
           exact_root_finder_propagates 100 0 0.05 1 10 sigma_est_default).
  left. reflexivity.
Defined.

